(** * Order tracker: CSV reconciliation service and query layer

    A shallow embedding of [src/services/csvService.ts] (class [CSVService])
    and of the filter / sort / sort-toggle functions of [src/App.tsx],
    together with the properties of the specification that concern them.

    Conventions of the embedding.
    - A JavaScript string is the sequence of its code units; the code units
      modelled are those below 256 (the Latin-1 range), one [ascii] each.
    - A CSV row and a tracking record are JavaScript objects whose values
      are strings (the CSV parser is run with [header: true] and without
      dynamic typing): [gmap string string].  A missing property
      ([undefined]) is a lookup that returns [None].
    - What the program asks of its host (the clock, the time zone, the
      general date parser, locale rendering and collation, [fetch] and the
      CSV parser) is gathered in the record [Host]. *)

From Stdlib Require Import ZArith Lia Ascii Sorted.
From stdpp Require Import gmap strings list fin_maps pretty.

Local Open Scope Z_scope.

(** ** The JavaScript runtime: strings *)

Module JS.

(** White space removed by [String.prototype.trim], for code units < 256:
    TAB, LF, VT, FF, CR, SP and NBSP. *)
Definition is_whitespace (c : ascii) : bool :=
  match c with
  | "009" | "010" | "011" | "012" | "013" | " " | "160" => true
  | _ => false
  end%char.

Definition is_digit (c : ascii) : bool :=
  let n := N_of_ascii c in (48 <=? n)%N && (n <=? 57)%N.

Definition is_upper (c : ascii) : bool :=
  let n := N_of_ascii c in (65 <=? n)%N && (n <=? 90)%N.

Definition is_lower (c : ascii) : bool :=
  let n := N_of_ascii c in (97 <=? n)%N && (n <=? 122)%N.

(** The class [\w] of regular expressions: [[A-Za-z0-9_]]. *)
Definition is_word (c : ascii) : bool :=
  is_upper c || is_lower c || is_digit c || bool_decide (c = "_"%char).

(** Lower-case mapping of one code unit: [A-Z], and the Latin-1 capitals
    U+00C0..U+00DE except the multiplication sign U+00D7. *)
Definition lower_char (c : ascii) : ascii :=
  let n := N_of_ascii c in
  if is_upper c then ascii_of_N (n + 32)
  else if (192 <=? n)%N && (n <=? 222)%N && negb (n =? 215)%N
       then ascii_of_N (n + 32)
       else c.

Fixpoint toLowerCase (s : string) : string :=
  match s with
  | EmptyString => EmptyString
  | String c s' => String (lower_char c) (toLowerCase s')
  end.

Fixpoint trimStart (s : string) : string :=
  match s with
  | EmptyString => EmptyString
  | String c s' => if is_whitespace c then trimStart s' else s
  end.

Fixpoint trimEnd (s : string) : string :=
  match s with
  | EmptyString => EmptyString
  | String c s' =>
      match trimEnd s' with
      | EmptyString => if is_whitespace c then EmptyString else String c EmptyString
      | t => String c t
      end
  end.

Definition trim (s : string) : string := trimEnd (trimStart s).

Fixpoint whitespace_only (s : string) : bool :=
  match s with
  | EmptyString => true
  | String c s' => is_whitespace c && whitespace_only s'
  end.

Fixpoint startsWith (s p : string) : bool :=
  match p, s with
  | EmptyString, _ => true
  | String _ _, EmptyString => false
  | String a p', String b s' => bool_decide (a = b) && startsWith s' p'
  end.

(** [s.includes(p)]: [p] occurs in [s] as a substring. *)
Fixpoint includes (s p : string) : bool :=
  startsWith s p ||
  match s with
  | EmptyString => false
  | String _ s' => includes s' p
  end.

(** [s.split(/[-,]/)] and the like: split at every code unit accepted by
    [sep].  The result is never empty. *)
Fixpoint split (sep : ascii -> bool) (s : string) : list string :=
  match s with
  | EmptyString => [EmptyString]
  | String c s' =>
      if sep c then EmptyString :: split sep s'
      else match split sep s' with
           | p :: ps => String c p :: ps
           | [] => [String c EmptyString]
           end
  end.

(** [Number(s)] for a string of decimal digits. *)
Definition digit_value (c : ascii) : Z := Z.of_N (N_of_ascii c) - 48.

Fixpoint Number_go (acc : Z) (s : string) : Z :=
  match s with
  | EmptyString => acc
  | String c s' => Number_go (10 * acc + digit_value c) s'
  end.

Definition Number (s : string) : Z := Number_go 0 s.

(** Values read from an object: [undefined] is [None]. *)
Definition truthy (v : option string) : bool :=
  match v with
  | Some (String _ _) => true
  | _ => false
  end.

(** [v || d] where [d] is a string. *)
Definition or_str (v : option string) (d : string) : string :=
  match v with
  | Some (String c s) => String c s
  | _ => d
  end.

(** [o1 || o2] where the operands are [undefined] or an object (objects are
    always truthy). *)
Definition or_obj {A} (o1 o2 : option A) : option A :=
  match o1 with
  | Some _ => o1
  | None => o2
  end.

(** ** The JavaScript runtime: dates (ECMA-262, Date objects)

    A time value is a number of milliseconds since the epoch, or NaN,
    written [None]. *)

Definition msPerDay : Z := 86400000.

Definition Day (t : Z) : Z := t / msPerDay.

Definition DayFromYear (y : Z) : Z :=
  365 * (y - 1970) + (y - 1969) / 4 - (y - 1901) / 100 + (y - 1601) / 400.

Definition InLeapYear (y : Z) : bool :=
  if negb (y mod 4 =? 0) then false
  else if negb (y mod 100 =? 0) then true
  else (y mod 400 =? 0).

(** Day within the year of the first day of month [m] (0 = January). *)
Definition DayFromMonth (m : Z) (leap : bool) : Z :=
  let l := if leap then 1 else 0 in
  match m with
  | 0 => 0
  | 1 => 31
  | 2 => 59 + l
  | 3 => 90 + l
  | 4 => 120 + l
  | 5 => 151 + l
  | 6 => 181 + l
  | 7 => 212 + l
  | 8 => 243 + l
  | 9 => 273 + l
  | 10 => 304 + l
  | _ => 334 + l
  end.

Definition MakeDay (year month date : Z) : Z :=
  let ym := year + month / 12 in
  let mn := month mod 12 in
  DayFromYear ym + DayFromMonth mn (InLeapYear ym) + date - 1.

Definition MakeTime (hour min sec ms : Z) : Z :=
  hour * 3600000 + min * 60000 + sec * 1000 + ms.

Definition MakeDate (day time : Z) : Z := day * msPerDay + time.

Definition TimeClip (t : Z) : option Z :=
  if 8640000000000000 <? Z.abs t then None else Some t.

(** [a < b] and [a === b] on time values; both are false on NaN. *)
Definition num_lt (a b : option Z) : bool :=
  match a, b with
  | Some x, Some y => x <? y
  | _, _ => false
  end.

Definition num_eq (a b : option Z) : bool :=
  match a, b with
  | Some x, Some y => x =? y
  | _, _ => false
  end.

(** [a - b] on numbers. *)
Definition num_sub (a b : option Z) : option Z :=
  match a, b with
  | Some x, Some y => Some (x - y)
  | _, _ => None
  end.

(** ** The host

    [now] is the time value read by [new Date()]; it is taken to be the
    same throughout one load.  Local time is UTC shifted by the constant
    [LocalTZA] (no daylight-saving change is modelled).  [Date_parse] is the
    time value of [new Date(s)] for a string [s]; [toLocaleDateString] and
    [toLocaleString] render a time value with the options the program
    passes; [localeCompare] is the collation of the host. *)

Inductive result (A : Type) : Type :=
  | Ok (a : A)
  | Err (message : string).
Arguments Ok {A} a.
Arguments Err {A} message.

(** Promises that resolve or reject are sequenced with the notation
    [x ← p; k] of the error monad. *)
Global Instance result_ret : MRet result := fun A a => Ok a.

Global Instance result_bind : MBind result := fun A B k p =>
  match p with
  | Ok a => k a
  | Err message => Err message
  end.

Inductive FetchOutcome : Type :=
  | Rejected (message : string)
  | Response (ok : bool) (statusText : string) (text : string).

Record Host : Type := {
  now : Z;
  LocalTZA : Z;
  Date_parse : string -> option Z;
  toLocaleDateString : Z -> string;
  toLocaleString : Z -> string;
  localeCompare : string -> string -> Z;
  fetch : string -> FetchOutcome;
  Papa_parse : string -> result (list (gmap string string));
}.

Definition LocalTime (h : Host) (t : Z) : Z := t + LocalTZA h.

Definition UTC (h : Host) (t : Z) : Z := t - LocalTZA h.

(** A year from 0 to 99 given to the [Date] constructor means 1900 + year. *)
Definition MakeFullYear (year : Z) : Z :=
  if (0 <=? year) && (year <=? 99) then 1900 + year else year.

(** [new Date(year, month, date)] with finite integer arguments. *)
Definition Date_of_components (h : Host) (year month date : Z) : option Z :=
  let yr := MakeFullYear year in
  TimeClip (UTC h (MakeDate (MakeDay yr month date) (MakeTime 0 0 0 0))).

(** [d.setHours(0, 0, 0, 0)]: the time value [d] holds afterwards. *)
Definition setHours0 (h : Host) (d : option Z) : option Z :=
  match d with
  | None => None
  | Some t =>
      TimeClip (UTC h (MakeDate (Day (LocalTime h t)) (MakeTime 0 0 0 0)))
  end.

(** The regular expression [/^(\d{4})-(\d{2})-(\d{2})$/]: the three
    captured groups. *)
Fixpoint take_digits (n : nat) (s : string) : option (string * string) :=
  match n with
  | O => Some (EmptyString, s)
  | S n' =>
      match s with
      | String c s' =>
          if is_digit c
          then '(ds, rest) ← take_digits n' s'; Some (String c ds, rest)
          else None
      | EmptyString => None
      end
  end.

Definition expect (c : ascii) (s : string) : option string :=
  match s with
  | String c' s' => if bool_decide (c' = c) then Some s' else None
  | EmptyString => None
  end.

Definition dateOnlyMatch (s : string) : option (string * string * string) :=
  '(year, s1) ← take_digits 4 s;
  s2 ← expect "-" s1;
  '(month, s3) ← take_digits 2 s2;
  s4 ← expect "-" s3;
  '(day, s5) ← take_digits 2 s4;
  match s5 with
  | EmptyString => Some (year, month, day)
  | String _ _ => None
  end.

(** ** The JavaScript runtime: further string operations *)

(** [s.replace(/_/g, ' ')] and the like: every code unit through [f]. *)
Fixpoint map_chars (f : ascii -> ascii) (s : string) : string :=
  match s with
  | EmptyString => EmptyString
  | String c s' => String (f c) (map_chars f s')
  end.

(** [s.replace(/[()]/g, '')] and the like: drop the code units accepted
    by [p]. *)
Fixpoint remove_chars (p : ascii -> bool) (s : string) : string :=
  match s with
  | EmptyString => EmptyString
  | String c s' => if p c then remove_chars p s' else String c (remove_chars p s')
  end.

(** [s.replace(/\s+/g, '_')]: every maximal run of white space becomes one
    underscore; [in_run] tells whether the code unit before [s] is white
    space. *)
Fixpoint replace_space_runs (in_run : bool) (s : string) : string :=
  match s with
  | EmptyString => EmptyString
  | String c s' =>
      if is_whitespace c then
        if in_run then replace_space_runs true s'
        else String "_" (replace_space_runs true s')
      else String c (replace_space_runs false s')
  end.

(** [c.toUpperCase()] for a code unit of the class [\w]. *)
Definition upper_word_char (c : ascii) : ascii :=
  if is_lower c then ascii_of_N (N_of_ascii c - 32) else c.

(** [s.replace(/\b\w/g, l => l.toUpperCase())]: the first code unit of
    every run of word characters in upper case; [prev_word] tells whether
    the code unit before [s] is a word character. *)
Fixpoint capitalize_words (prev_word : bool) (s : string) : string :=
  match s with
  | EmptyString => EmptyString
  | String c s' =>
      String (if is_word c && negb prev_word then upper_word_char c else c)
             (capitalize_words (is_word c) s')
  end.

(** Every code unit of [s] is accepted by [p]. *)
Fixpoint all_chars (p : ascii -> bool) (s : string) : bool :=
  match s with
  | EmptyString => true
  | String c s' => p c && all_chars p s'
  end.

(** [encodeURIComponent]: the unreserved code units stay, every other one
    becomes the percent-escapes of its UTF-8 bytes (one byte below 128, two
    from 128 to 255). *)
Definition is_unreserved (c : ascii) : bool :=
  is_upper c || is_lower c || is_digit c
  || match c with
     | "-" | "_" | "." | "!" | "~" | "*" | "'" | "(" | ")" => true
     | _ => false
     end%char.

Definition hex_digit (n : N) : ascii :=
  if (n <? 10)%N then ascii_of_N (48 + n) else ascii_of_N (55 + n).

Definition percent_byte (b : N) (rest : string) : string :=
  String "%" (String (hex_digit (b / 16)) (String (hex_digit (b mod 16)) rest)).

Fixpoint encodeURIComponent (s : string) : string :=
  match s with
  | EmptyString => EmptyString
  | String c s' =>
      let n := N_of_ascii c in
      let rest := encodeURIComponent s' in
      if is_unreserved c then String c rest
      else if (n <? 128)%N then percent_byte n rest
      else percent_byte (192 + n / 64) (percent_byte (128 + n mod 64) rest)
  end.

(** ** The JavaScript runtime: [Map]

    A [Map] with string keys keeps its entries in the order in which the
    keys were first set: a list of entries with distinct keys. *)

Section JSMap.
Context {V : Type}.

Definition Map_get (m : list (string * V)) (k : string) : option V :=
  snd <$> List.find (fun kv => bool_decide (kv.1 = k)) m.

Definition Map_has (m : list (string * V)) (k : string) : bool :=
  match Map_get m k with
  | Some _ => true
  | None => false
  end.

(** The value under [k] through [f], in place. *)
Definition Map_alter (f : V -> V) (k : string) (m : list (string * V))
    : list (string * V) :=
  (fun kv => if bool_decide (kv.1 = k) then (kv.1, f kv.2) else kv) <$> m.

(** [m.set(k, v)]: an existing key keeps its place. *)
Definition Map_set (m : list (string * V)) (k : string) (v : V)
    : list (string * V) :=
  if Map_has m k then Map_alter (fun _ => v) k m else m ++ [(k, v)].

End JSMap.

End JS.

(** ** [src/services/csvService.ts]: class [CSVService] *)

Module CsvService.
Import JS.

(** A parsed CSV row, and a [TrackingInfo] object. *)
Abbreviation row := (gmap string string).
Abbreviation TrackingInfo := (gmap string string).

Definition csvPath : string := "/TestCSVFile.csv".
Definition additionalCsvPath : string := "/AdditionalOrderInfo.csv".

(** *** [loadCSVFile] *)

Definition loadCSVFile (h : Host) (path : string) : result (list row) :=
  let timestamp := now h in
  match fetch h (path +:+ "?t=" +:+ pretty timestamp) with
  | Rejected message => Err message
  | Response ok statusText csvText =>
      if negb ok then
        if bool_decide (path = additionalCsvPath) then Ok []
        else Err ("Failed to load CSV: " +:+ statusText)
      else Papa_parse h csvText
  end.

(** *** [determineStatus] *)

Definition determineStatus (h : Host) (estimatedDelivery : string) : string :=
  let today := setHours0 h (Some (now h)) in
  match estimatedDelivery with
  | EmptyString => "in_transit"
  | String _ _ =>
      let trimmed := trim estimatedDelivery in
      let estDate :=
        match dateOnlyMatch trimmed with
        | Some (year, month, day) =>
            Date_of_components h (Number year) (Number month - 1) (Number day)
        | None => Date_parse h trimmed
        end in
      let estDate := setHours0 h estDate in
      match estDate with
      | None => "in_transit"
      | Some _ =>
          if num_lt estDate today then "delivered"
          else if num_eq estDate today then "out_for_delivery"
          else "in_transit"
      end
  end.

(** *** [parseDestination] *)

Record Destination : Type := {
  city : option string;
  state : option string;
}.

Definition is_dash_or_comma (c : ascii) : bool :=
  bool_decide (c = "-"%char) || bool_decide (c = ","%char).

Definition next_is_word (s : string) : bool :=
  match s with
  | String c _ => is_word c
  | EmptyString => false
  end.

(** First match of [/\b([A-Z]{2})\b/]; [prev_word] tells whether the code
    unit before [s] is a word character. *)
Fixpoint statePattern_go (prev_word : bool) (s : string) : option string :=
  match s with
  | String a s' =>
      match s' with
      | String b rest =>
          if negb prev_word && is_upper a && is_upper b && negb (next_is_word rest)
          then Some (String a (String b EmptyString))
          else statePattern_go (is_word a) s'
      | EmptyString => None
      end
  | EmptyString => None
  end.

Definition statePattern (s : string) : option string := statePattern_go false s.

(** [p.match(/^[A-Z]{2}$/)] succeeds. *)
Definition is_state_token (p : string) : bool :=
  match p with
  | String a (String b EmptyString) => is_upper a && is_upper b
  | _ => false
  end.

Definition parseDestination (recipientName : string) : Destination :=
  match recipientName with
  | EmptyString => {| city := None; state := None |}
  | String _ _ =>
      let parts := trim <$> split is_dash_or_comma recipientName in
      match statePattern recipientName with
      | Some st =>
          if (2 <=? length parts)%nat then
            let c := or_str (List.find (fun p => negb (is_state_token p)
                                                 && (0 <? String.length p)%nat) parts) "" in
            {| city := Some c; state := Some st |}
          else {| city := None; state := None |}
      | None => {| city := None; state := None |}
      end
  end.

(** *** [loadTrackings] *)

(** Key under which a supplemental row enters [additionalDataMap]. *)
Definition additionalKey (r : row) : string :=
  or_str (r !! "order_number")
    (or_str (r !! "order_id")
       (or_str (r !! "tracking_number")
          (or_str (r !! "po_number") ""))).

Definition additionalDataMap (additionalData : list row) : gmap string row :=
  foldl (fun m r =>
           match additionalKey r with
           | EmptyString => m
           | String _ _ as key => <[toLowerCase key := r]> m
           end) ∅ additionalData.

(** The supplemental row matched with the primary row at [index]. *)
Definition additionalInfo (additionalData : list row) (r : row) (index : nat) : row :=
  let orderId := or_str (r !! "order_number") "" in
  let trackingNumber := or_str (r !! "tracking_number") "" in
  let m := additionalDataMap additionalData in
  default ∅
    (or_obj (m !! toLowerCase orderId)
       (or_obj (m !! toLowerCase trackingNumber)
          (or_obj (m !! toLowerCase (or_str (r !! "po_number") ""))
             (Some (default ∅ (additionalData !! index)))))).

Definition baseTracking (h : Host) (r : row) (index : nat) : TrackingInfo :=
  let trackingNumber := or_str (r !! "tracking_number") "" in
  let estimatedDelivery := or_str (r !! "estimated_delivery") "" in
  let shipDate := or_str (r !! "ship_date") (or_str (r !! "email_date") "") in
  let orderId := or_str (r !! "order_number") "" in
  let tag := determineStatus h estimatedDelivery in
  let recipientName :=
    or_str (r !! "recipient_site_name") (or_str (r !! "recipient") "") in
  let destinationParts := parseDestination recipientName in
  list_to_map [
    ("id", or_str (Some orderId)
             (or_str (r !! "po_number") ("tracking-" +:+ pretty index)));
    ("tracking_number", trackingNumber);
    ("slug", toLowerCase (or_str (r !! "carrier") ""));
    ("tag", tag);
    ("title", or_str (r !! "subject")
                (trim (or_str (r !! "from_company") "" +:+ " Order "
                       +:+ or_str (Some orderId) "")));
    ("order_id", orderId);
    ("po_number", or_str (r !! "po_number") "");
    ("destination_city", or_str (city destinationParts) "");
    ("destination_state", or_str (state destinationParts) "");
    ("last_updated_at", or_str (Some shipDate) (or_str (r !! "email_date") ""));
    ("estimated_delivery", estimatedDelivery);
    ("checkpoint_message", or_str (r !! "body_preview") (or_str (r !! "subject") ""));
    ("checkpoint_location", recipientName);
    ("checkpoint_date", or_str (Some estimatedDelivery)
                          (or_str (Some shipDate) (or_str (r !! "email_date") "")));
    ("recipient_name", recipientName);
    ("from_company", or_str (r !! "from_company") "")
  ].

(** [Object.keys(additionalInfo).forEach(...)]: one step copies the key
    when the record has no such own property and the value is truthy. *)
Definition mergeKey (acc : TrackingInfo) (kv : string * string) : TrackingInfo :=
  if bool_decide (acc !! kv.1 = None) && truthy (Some kv.2)
  then <[kv.1 := kv.2]> acc
  else acc.

Definition mergeAdditional (base : TrackingInfo) (info : row) : TrackingInfo :=
  foldl mergeKey base (map_to_list info).

(** The callback of [ordersData.map]. *)
Definition buildTracking (h : Host) (additionalData : list row)
    (index : nat) (r : row) : TrackingInfo :=
  mergeAdditional (baseTracking h r index) (additionalInfo additionalData r index).

(** The predicate of the final [filter]. *)
Definition keepTracking (t : TrackingInfo) : bool :=
  match t !! "tracking_number" with
  | Some (String _ _ as tn) => negb (bool_decide (trim tn = ""))
  | _ => false
  end.

(** The body of [loadTrackings] once both files are loaded. *)
Definition reconcile (h : Host) (ordersData additionalData : list row)
    : list TrackingInfo :=
  List.filter keepTracking (imap (buildTracking h additionalData) ordersData).

(** [p.catch(() => [])] *)
Definition catch_empty {A} (p : result (list A)) : result (list A) :=
  match p with
  | Ok v => Ok v
  | Err _ => Ok []
  end.

(** [try { ... } catch (error) { throw new Error(prefix + error.message) }] *)
Definition rethrow {A} (prefix : string) (body : result A) : result A :=
  match body with
  | Ok v => Ok v
  | Err message => Err (prefix +:+ message)
  end.

Definition loadTrackings (h : Host) : result (list TrackingInfo) :=
  rethrow "Failed to load CSV file: "
    (ordersData ← loadCSVFile h csvPath;
     additionalData ← catch_empty (loadCSVFile h additionalCsvPath);
     mret (reconcile h ordersData additionalData)).

(** *** [transformHeader] (the header normalisation given to the parser) *)

Definition is_paren (c : ascii) : bool :=
  bool_decide (c = "("%char) || bool_decide (c = ")"%char).

Definition transformHeader (header : string) : string :=
  remove_chars is_paren (replace_space_runs false (toLowerCase (trim header))).

(** *** [loadPOItems] *)

Definition poItemsCsvPath : string := "/mock_po_items_100.csv".

(** The [quantity] of an item is a string or a number; the numbers
    modelled are the integers ([loadPOItems] only produces 0). *)
Inductive Quantity : Type :=
  | QString (s : string)
  | QNumber (n : Z).

Record POItem : Type := {
  po_number : string;
  item_name : string;
  part_number : string;
  description : string;
  color : string;
  quantity : Quantity;
}.

(** [row.quantity || 0] *)
Definition quantityOf (r : row) : Quantity :=
  match r !! "quantity" with
  | Some (String _ _ as q) => QString q
  | _ => QNumber 0
  end.

(** The item made of a row whose PO number is [poNumber]. *)
Definition itemOfRow (poNumber : string) (r : row) : POItem := {|
  po_number := poNumber;
  item_name := or_str (r !! "item_name") "";
  part_number := or_str (r !! "part_number") "";
  description := or_str (r !! "description") "";
  color := or_str (r !! "color") "";
  quantity := quantityOf r;
|}.

(** One step of [itemsData.forEach]: the row's item goes to the end of the
    list kept under its lower-cased PO number; a row without PO number is
    skipped. *)
Definition addItem (itemsMap : list (string * list POItem)) (r : row)
    : list (string * list POItem) :=
  match or_str (r !! "po_number") "" with
  | EmptyString => itemsMap
  | String _ _ as poNumber =>
      let item := itemOfRow poNumber r in
      let normalizedPO := toLowerCase poNumber in
      let itemsMap :=
        if negb (Map_has itemsMap normalizedPO) then Map_set itemsMap normalizedPO []
        else itemsMap in
      Map_alter (fun items => items ++ [item]) normalizedPO itemsMap
  end.

Definition groupItems (itemsData : list row) : list (string * list POItem) :=
  foldl addItem [] itemsData.

Definition loadPOItems (h : Host) : result (list (string * list POItem)) :=
  match
    itemsData ← catch_empty (loadCSVFile h poItemsCsvPath);
    mret (groupItems itemsData)
  with
  | Ok itemsMap => Ok itemsMap
  | Err _ => Ok []
  end.

End CsvService.

(** ** [src/App.tsx]: the query layer *)

Module App.
Import JS.

Abbreviation TrackingInfo := (gmap string string).

Inductive SortColumn : Type :=
  | tracking_number | order_id | po_number | from_company | recipient_name
  | carrier | status | ship_date | estimated_delivery.

Inductive SortDirection : Type := asc | desc.

Global Instance SortColumn_eq_dec : EqDecision SortColumn.
Proof. solve_decision. Defined.

(** *** [getStatusColor] *)

Definition getStatusColor (tag : option string) : string :=
  match toLowerCase <$> tag with
  | Some "delivered" => "#10b981"
  | Some "in_transit" => "#3b82f6"
  | Some "pending" => "#f59e0b"
  | Some "exception" => "#ef4444"
  | Some "out_for_delivery" => "#8b5cf6"
  | _ => "#6b7280"
  end.

(** *** [formatDate] *)

Definition formatDate (h : Host) (dateString : option string) : string :=
  match dateString with
  | Some (String _ _ as dateString) =>
      match trim dateString with
      | EmptyString => "N/A"
      | String _ _ as trimmed =>
          match dateOnlyMatch trimmed with
          | Some (year, month, day) =>
              match Date_of_components h (Number year) (Number month - 1) (Number day) with
              | Some t => toLocaleDateString h t
              | None => "Invalid Date"
              end
          | None =>
              match Date_parse h trimmed with
              | None => dateString
              | Some t => toLocaleString h t
              end
          end
      end
  | _ => "N/A"
  end.

(** *** [filterTrackings] *)

(** The keys skipped by the loop over [Object.keys(tracking)]. *)
Definition enumeratedKeys : list string :=
  ["id"; "tracking_number"; "order_id"; "po_number"; "from_company";
   "recipient_name"; "destination_city"; "destination_state"; "slug";
   "tag"; "title"; "checkpoint_message"; "checkpoint_location";
   "last_updated_at"; "estimated_delivery"; "checkpoint_date"].

Definition standardValues (h : Host) (tracking : TrackingInfo) : list (option string) :=
  [tracking !! "tracking_number";
   tracking !! "order_id";
   tracking !! "po_number";
   tracking !! "from_company";
   tracking !! "recipient_name";
   tracking !! "destination_city";
   tracking !! "destination_state";
   tracking !! "slug";
   tracking !! "tag";
   tracking !! "title";
   tracking !! "checkpoint_message";
   tracking !! "checkpoint_location";
   Some (formatDate h (tracking !! "last_updated_at"));
   Some (formatDate h (tracking !! "estimated_delivery"));
   Some (formatDate h (tracking !! "checkpoint_date"))].

Definition additionalValue (kv : string * string) : list (option string) :=
  if negb (bool_decide (kv.1 = "id")) && negb (bool_decide (kv.1 ∈ enumeratedKeys))
  then match kv.2 with
       | EmptyString => []
       | String _ _ => [Some kv.2]
       end
  else [].

Definition allFieldValues (h : Host) (tracking : TrackingInfo) : list (option string) :=
  standardValues h tracking ++ flat_map additionalValue (map_to_list tracking).

(** [.filter(Boolean).map(field => String(field).toLowerCase())] *)
Definition searchableFields (h : Host) (tracking : TrackingInfo) : list string :=
  (fun field => toLowerCase (or_str field "")) <$> List.filter truthy (allFieldValues h tracking).

Definition matchesSearch (h : Host) (searchLower : string) (tracking : TrackingInfo) : bool :=
  existsb (fun field => includes field searchLower) (searchableFields h tracking).

Definition hasStatus (statuses : list string) (tracking : TrackingInfo) : bool :=
  match tracking !! "tag" with
  | Some tag => bool_decide (tag ∈ statuses)
  | None => false
  end.

Definition filterTrackings (h : Host) (trackings : list TrackingInfo)
    (search : string) (statuses : list string) : list TrackingInfo :=
  let filtered :=
    if (0 <? length statuses)%nat then List.filter (hasStatus statuses) trackings
    else trackings in
  match trim search with
  | String _ _ =>
      let searchLower := trim (toLowerCase search) in
      List.filter (matchesSearch h searchLower) filtered
  | EmptyString => filtered
  end.

(** *** [sortTrackings] *)

(** The value a record is sorted by: a string, or a number that may be
    NaN. *)
Inductive SortValue : Type :=
  | VString (s : string)
  | VNumber (n : option Z).

Definition timeOr0 (h : Host) (v : option string) : option Z :=
  match v with
  | Some (String _ _ as s) => Date_parse h s
  | _ => Some 0
  end.

Definition sortValue (h : Host) (column : SortColumn) (a : TrackingInfo) : SortValue :=
  match column with
  | tracking_number => VString (or_str (a !! "tracking_number") "")
  | order_id => VString (or_str (a !! "order_id") "")
  | po_number => VString (or_str (a !! "po_number") "")
  | from_company => VString (or_str (a !! "from_company") "")
  | recipient_name => VString (or_str (a !! "recipient_name") "")
  | carrier => VString (or_str (a !! "slug") "")
  | status => VString (or_str (a !! "tag") "")
  | ship_date => VNumber (timeOr0 h (a !! "last_updated_at"))
  | estimated_delivery => VNumber (timeOr0 h (a !! "estimated_delivery"))
  end.

(** The comparison function handed to [sort]; [None] is NaN.  Both values
    come from the same case of the switch, so they are two strings or two
    numbers. *)
Definition compareTrackings (h : Host) (column : SortColumn)
    (direction : SortDirection) (a b : TrackingInfo) : option Z :=
  match sortValue h column a, sortValue h column b with
  | VString aValue, VString bValue =>
      Some (match direction with
            | asc => localeCompare h aValue bValue
            | desc => localeCompare h bValue aValue
            end)
  | VNumber aValue, VNumber bValue =>
      match direction with
      | asc => num_sub aValue bValue
      | desc => num_sub bValue aValue
      end
  | _, _ => None
  end.

(** [Array.prototype.sort] is a stable sort; a comparison result of NaN
    counts as 0.  It is modelled by insertion sort. *)
Section Sort.
Context {A : Type} (comparefn : A -> A -> option Z).

Definition SortCompare (x y : A) : Z := default 0 (comparefn x y).

Fixpoint insert_sorted (x : A) (l : list A) : list A :=
  match l with
  | [] => [x]
  | y :: l' =>
      if SortCompare x y <=? 0 then x :: y :: l'
      else y :: insert_sorted x l'
  end.

Definition Array_sort (l : list A) : list A := foldr insert_sorted [] l.
End Sort.

Definition sortTrackings (h : Host) (trackings : list TrackingInfo)
    (column : option SortColumn) (direction : option SortDirection)
    : list TrackingInfo :=
  match column, direction with
  | Some column, Some direction =>
      Array_sort (compareTrackings h column direction) trackings
  | _, _ => trackings
  end.

(** *** [handleSort] *)

Record SortState : Type := {
  sortColumn : option SortColumn;
  sortDirection : option SortDirection;
}.

Definition handleSort (st : SortState) (column : SortColumn) : SortState :=
  if bool_decide (sortColumn st = Some column) then
    match sortDirection st with
    | Some asc => {| sortColumn := sortColumn st; sortDirection := Some desc |}
    | Some desc => {| sortColumn := None; sortDirection := None |}
    | None => {| sortColumn := sortColumn st; sortDirection := Some asc |}
    end
  else {| sortColumn := Some column; sortDirection := Some asc |}.

(** *** [getStatusLabel] and [formatColumnName] *)

Definition underscore_to_space (c : ascii) : ascii :=
  if bool_decide (c = "_"%char) then " "%char else c.

Definition formatColumnName (key : string) : string :=
  capitalize_words false (map_chars underscore_to_space key).

Definition getStatusLabel (tag : option string) : string :=
  or_str (formatColumnName <$> tag) "Unknown".

(** *** [getTrackingUrl] *)

Definition getTrackingUrl (trackingNumber carrier : string) : option string :=
  match trackingNumber, carrier with
  | String _ _, String _ _ =>
      let normalizedCarrier := trim (toLowerCase carrier) in
      let encodedTracking := encodeURIComponent trackingNumber in
      Some
        (if bool_decide (normalizedCarrier = "ups")
         then "https://www.ups.com/track?tracknum=" +:+ encodedTracking
         else if bool_decide (normalizedCarrier ∈ ["fedex"; "fedex express"; "fedex ground"])
         then "https://www.fedex.com/fedextrack/?trknbr=" +:+ encodedTracking
         else if bool_decide (normalizedCarrier = "usps")
         then "https://tools.usps.com/go/TrackConfirmAction?qtc_tLabels1=" +:+ encodedTracking
         else if bool_decide (normalizedCarrier = "dhl")
         then "https://www.dhl.com/en/express/tracking.html?AWB=" +:+ encodedTracking
         else if bool_decide (normalizedCarrier ∈ ["amazon"; "amazon logistics"])
         then "https://www.amazon.com/progress-tracker/package/" +:+ encodedTracking
         else if bool_decide (normalizedCarrier = "ontrac")
         then "https://www.ontrac.com/tracking-results?tracking_number=" +:+ encodedTracking
         else if bool_decide (normalizedCarrier = "lasership")
         then "https://lasership.com/track/" +:+ encodedTracking
         else "https://www.google.com/search?q=" +:+ encodedTracking +:+ "+tracking")
  | _, _ => None
  end.

(** *** [toggleStatusFilter] *)

Definition toggleStatusFilter (prev : list string) (status : string) : list string :=
  if bool_decide (status ∈ prev)
  then List.filter (fun s => negb (bool_decide (s = status))) prev
  else prev ++ [status].

(** *** The records of the active page, filtered and sorted *)

(** [t.tag?.toLowerCase() === 'delivered'] *)
Definition isDelivered (t : TrackingInfo) : bool :=
  bool_decide (toLowerCase <$> t !! "tag" = Some "delivered").

Definition trackingsToShow (activePage : string) (trackings : list TrackingInfo)
    : list TrackingInfo :=
  if bool_decide (activePage = "tracking")
  then List.filter (fun t => negb (isDelivered t)) trackings
  else if bool_decide (activePage = "order-history")
  then List.filter isDelivered trackings
  else trackings.

Definition sortedTrackings (h : Host) (activePage : string)
    (trackings : list TrackingInfo) (searchTerm : string)
    (statusFilter : list string) (st : SortState) : list TrackingInfo :=
  let filteredTrackings :=
    filterTrackings h (trackingsToShow activePage trackings) searchTerm statusFilter in
  sortTrackings h filteredTrackings (sortColumn st) (sortDirection st).

(** *** [getAllItems] *)

Definition hasPO (t : TrackingInfo) : bool := truthy (t !! "po_number").

(** The lower-cased PO numbers of the records accepted by [keep]. *)
Definition poNumbersOf (keep : TrackingInfo -> bool) (trackings : list TrackingInfo)
    : list string :=
  (fun t => toLowerCase (or_str (t !! "po_number") ""))
    <$> List.filter (fun t => keep t && hasPO t) trackings.

Definition getAllItems (trackings : list TrackingInfo)
    (poItemsMap : list (string * list CsvService.POItem))
    (onlyDelivered : option bool) : list CsvService.POItem :=
  match onlyDelivered with
  | Some true =>
      let deliveredPONumbers := poNumbersOf isDelivered trackings in
      flat_map (fun entry =>
                  if bool_decide (toLowerCase entry.1 ∈ deliveredPONumbers)
                  then entry.2 else []) poItemsMap
  | Some false =>
      let nonDeliveredPONumbers :=
        poNumbersOf (fun t => negb (isDelivered t)) trackings in
      flat_map (fun entry =>
                  if bool_decide (toLowerCase entry.1 ∈ nonDeliveredPONumbers)
                  then entry.2 else []) poItemsMap
  | None => flat_map snd poItemsMap
  end.

(** *** [filterItems] *)

Module ItemColumn.
Inductive t : Type :=
  | all | item_name | part_number | description | color | quantity | po_number.
End ItemColumn.

(** [String(q)] *)
Definition String_of_quantity (q : CsvService.Quantity) : string :=
  match q with
  | CsvService.QString s => s
  | CsvService.QNumber n => pretty n
  end.

(** [String(q || '')] *)
Definition String_of_quantity_or_empty (q : CsvService.Quantity) : string :=
  match q with
  | CsvService.QString s => s
  | CsvService.QNumber n => if n =? 0 then "" else pretty n
  end.

(** The text searched when one column is selected. *)
Definition fieldValue (column : ItemColumn.t) (item : CsvService.POItem) : string :=
  match column with
  | ItemColumn.item_name => CsvService.item_name item
  | ItemColumn.part_number => CsvService.part_number item
  | ItemColumn.description => CsvService.description item
  | ItemColumn.color => CsvService.color item
  | ItemColumn.quantity => String_of_quantity_or_empty (CsvService.quantity item)
  | ItemColumn.po_number => CsvService.po_number item
  | ItemColumn.all => ""
  end.

Definition itemSearchableFields (item : CsvService.POItem) : list string :=
  toLowerCase <$>
    List.filter (fun f => truthy (Some f))
      [CsvService.item_name item; CsvService.part_number item;
       CsvService.description item; CsvService.color item;
       String_of_quantity (CsvService.quantity item); CsvService.po_number item].

Definition itemMatches (searchLower : string) (column : ItemColumn.t)
    (item : CsvService.POItem) : bool :=
  match column with
  | ItemColumn.all =>
      existsb (fun field => includes field searchLower) (itemSearchableFields item)
  | _ => includes (toLowerCase (fieldValue column item)) searchLower
  end.

Definition filterItems (items : list CsvService.POItem) (search : string)
    (column : ItemColumn.t) : list CsvService.POItem :=
  match trim search with
  | EmptyString => items
  | String _ _ =>
      let searchLower := trim (toLowerCase search) in
      List.filter (itemMatches searchLower column) items
  end.

(** *** [findOrderByPONumber] and [handleItemClick] *)

Definition findOrderByPONumber (trackings : list TrackingInfo) (poNumber : string)
    : option TrackingInfo :=
  List.find (fun t => bool_decide (toLowerCase <$> t !! "po_number"
                                   = Some (toLowerCase poNumber))) trackings.

(** The selected record after a click on an item. *)
Definition handleItemClick (trackings : list TrackingInfo)
    (selectedTracking : option TrackingInfo) (item : CsvService.POItem)
    : option TrackingInfo :=
  match findOrderByPONumber trackings (CsvService.po_number item) with
  | Some order => Some order
  | None => selectedTracking
  end.

End App.

(** ** A sample host

    A host in the UTC time zone whose clock reads 2026-11-02T00:00:00Z.
    Its date parser accepts the date-only ISO form [YYYY-MM-DD] (UTC
    midnight of that day) and nothing else; it renders dates the en-US
    way ([Nov 13, 2025]); the primary CSV file is served and holds
    [Sample.orders], the other files are missing.  [Sample.offline] is the
    same host with no file at all.  They are used to run the functions on
    concrete inputs. *)

Module Sample.
Import JS CsvService.

Definition parseIsoDate (s : string) : option Z :=
  match dateOnlyMatch s with
  | Some (year, month, day) =>
      let m := Number month in
      let d := Number day in
      if (1 <=? m) && (m <=? 12) && (1 <=? d) && (d <=? 31)
      then TimeClip (MakeDate (MakeDay (Number year) (m - 1) d) 0)
      else None
  | None => None
  end.

(** Year, month (1 to 12) and day of the month of a day number. *)
Definition civil_from_days (day : Z) : Z * Z * Z :=
  let z := day + 719468 in
  let era := z / 146097 in
  let doe := z - era * 146097 in
  let yoe := (doe - doe / 1460 + doe / 36524 - doe / 146096) / 365 in
  let doy := doe - (365 * yoe + yoe / 4 - yoe / 100) in
  let mp := (5 * doy + 2) / 153 in
  let d := doy - (153 * mp + 2) / 5 + 1 in
  let m := if mp <? 10 then mp + 3 else mp - 9 in
  let y := yoe + era * 400 in
  (if m <=? 2 then y + 1 else y, m, d).

Definition monthShort (m : Z) : string :=
  match m with
  | 1 => "Jan" | 2 => "Feb" | 3 => "Mar" | 4 => "Apr" | 5 => "May"
  | 6 => "Jun" | 7 => "Jul" | 8 => "Aug" | 9 => "Sep" | 10 => "Oct"
  | 11 => "Nov" | _ => "Dec"
  end.

Definition renderDate (t : Z) : string :=
  let '(y, m, d) := civil_from_days (Day t) in
  monthShort m +:+ " " +:+ pretty d +:+ ", " +:+ pretty y.

Definition twoDigits (n : Z) : string :=
  if n <? 10 then "0" +:+ pretty n else pretty n.

Definition renderDateTime (t : Z) : string :=
  let minutes := (t mod msPerDay) / 60000 in
  let hour := minutes / 60 in
  let hour12 := if hour mod 12 =? 0 then 12 else hour mod 12 in
  renderDate t +:+ ", " +:+ twoDigits hour12 +:+ ":" +:+ twoDigits (minutes mod 60)
  +:+ (if hour <? 12 then " AM" else " PM").

Definition orders : list (gmap string string) :=
  [ {[ "order_number" := "A1"; "tracking_number" := "1Z999";
       "carrier" := "UPS"; "estimated_delivery" := "2000-01-01" ]};
    {[ "order_number" := "A2"; "tracking_number" := "   " ]};
    {[ "tracking_number" := "9400"; "ship_date" := "2025-11-10";
       "estimated_delivery" := "2025-11-13" ]} ].

(** A supplemental file whose first row matches the first order by its
    tracking number (and by position) and whose second row matches it by
    its order number. *)
Definition additional : list (gmap string string) :=
  [ {[ "tracking_number" := "1z999"; "note" := "matched by tracking number" ]};
    {[ "order_number" := "a1"; "note" := "matched by order number" ]} ].

Definition host : Host := {|
  now := 1793577600000;
  LocalTZA := 0;
  Date_parse := parseIsoDate;
  toLocaleDateString := renderDate;
  toLocaleString := renderDateTime;
  localeCompare := fun a b =>
    match String.compare a b with Lt => -1 | Eq => 0 | Gt => 1 end;
  fetch := fun url =>
    if startsWith url csvPath then Response true "OK" "orders"
    else Response false "Not Found" "";
  Papa_parse := fun text =>
    if bool_decide (text = "orders") then Ok orders else Ok [];
|}.

Definition offline : Host := {|
  now := now host;
  LocalTZA := LocalTZA host;
  Date_parse := Date_parse host;
  toLocaleDateString := toLocaleDateString host;
  toLocaleString := toLocaleString host;
  localeCompare := localeCompare host;
  fetch := fun _ => Response false "Not Found" "";
  Papa_parse := Papa_parse host;
|}.

(** The records of the sample orders, and the record of the last order. *)
Definition trackings : list (gmap string string) := reconcile host orders [].

Definition lastTracking : gmap string string :=
  buildTracking host [] 2
    {[ "tracking_number" := "9400"; "ship_date" := "2025-11-10";
       "estimated_delivery" := "2025-11-13" ]}.

(** Rows of the items file, and records with PO numbers: a delivered one
    and one in transit. *)
Definition items : list (gmap string string) :=
  [ {[ "po_number" := "PO-7"; "item_name" := "Bolt" ]};
    {[ "item_name" := "Stray" ]};
    {[ "po_number" := "po-9"; "item_name" := "Nut"; "quantity" := "12" ]};
    {[ "po_number" := "po-7"; "item_name" := "Washer" ]} ].

Definition poTrackings : list (gmap string string) :=
  reconcile host
    [ {[ "tracking_number" := "1Z777"; "po_number" := "Po-7";
         "estimated_delivery" := "2000-01-01" ]};
      {[ "tracking_number" := "1Z888"; "po_number" := "PO-9";
         "estimated_delivery" := "2099-01-01" ]} ] [].

End Sample.

(** * Vocabulary of the properties *)

Import JS CsvService App.

(** The own properties of the object literal [baseTracking]. *)
Definition baseKeys : list string :=
  ["id"; "tracking_number"; "slug"; "tag"; "title"; "order_id"; "po_number";
   "destination_city"; "destination_state"; "last_updated_at";
   "estimated_delivery"; "checkpoint_message"; "checkpoint_location";
   "checkpoint_date"; "recipient_name"; "from_company"].

(** Neither empty nor made of white space only. *)
Definition nonblank (s : string) : Prop := s <> "" /\ whitespace_only s = false.

(** Number of the local calendar day the host's clock is in. *)
Definition today (h : Host) : Z := Day (LocalTime h (now h)).

(** The local calendar day [determineStatus] reads from the trimmed text:
    for a bare [YYYY-MM-DD] the day made of the three components, whatever
    the time zone; otherwise the local day of the instant the general
    parser returns. *)
Definition parsedDay (h : Host) (trimmed : string) : option Z :=
  match dateOnlyMatch trimmed with
  | Some (year, month, day) =>
      Some (MakeDay (MakeFullYear (Number year)) (Number month - 1) (Number day))
  | None => (fun t => Day (LocalTime h t)) <$> Date_parse h trimmed
  end.

(** Days whose local midnight is a time value in range, in any time zone
    at most a day away from UTC. *)
Definition validDay (d : Z) : Prop := Z.abs d < 100000000.

(** The status as a function of the parsed day and of today. *)
Definition statusOfDay (d today : Z) : string :=
  if d <? today then "delivered"
  else if d =? today then "out_for_delivery"
  else "in_transit".

(** The address [loadCSVFile] fetches for a path. *)
Definition urlOf (h : Host) (path : string) : string :=
  path +:+ "?t=" +:+ pretty (now h).

(** The fetch of a path failed: no response at all, or a response that is
    not ok. *)
Definition fetchFailed (h : Host) (path : string) : Prop :=
  (exists message, fetch h (urlOf h path) = Rejected message)
  \/ (exists statusText text,
        fetch h (urlOf h path) = Response false statusText text).

(** The date fields, which a search reads in their displayed form. *)
Definition dateKeys : list string :=
  ["last_updated_at"; "estimated_delivery"; "checkpoint_date"].

(** The text under which the value [v] of field [k] is searched. *)
Definition searchedForm (h : Host) (k v : string) : string :=
  if bool_decide (k ∈ dateKeys) then formatDate h (Some v) else v.

(** A normalised header: lower case, without white space or parentheses. *)
Definition normalised (s : string) : Prop :=
  all_chars (fun c => negb (is_whitespace c)) s = true
  /\ all_chars (fun c => negb (is_paren c)) s = true
  /\ all_chars (fun c => bool_decide (lower_char c = c)) s = true.

(** The supplemental row has a key, whose lower-cased form is [k]. *)
Definition keyedBy (k : string) (r : gmap string string) : bool :=
  bool_decide (additionalKey r <> "" /\ toLowerCase (additionalKey r) = k).

(** The row has a PO number whose lower-cased form is [k]. *)
Definition groupedUnder (k : string) (r : gmap string string) : Prop :=
  or_str (r !! "po_number") "" <> "" /\ toLowerCase (or_str (r !! "po_number") "") = k.

(** The items of the rows grouped under [k], in the order of the rows. *)
Definition itemsOf (k : string) (itemsData : list (gmap string string)) : list POItem :=
  (fun r => itemOfRow (or_str (r !! "po_number") "") r)
    <$> List.filter (fun r => bool_decide (groupedUnder k r)) itemsData.

(** The sort state before any click, and the states in which the
    direction is unset exactly when the column is. *)
Definition unsetSort : SortState := {| sortColumn := None; sortDirection := None |}.

Definition wellFormedSort (st : SortState) : Prop :=
  sortColumn st = None <-> sortDirection st = None.

(** The field a date column is sorted by, and the time a record counts
    for on that field (0 when its time value is NaN). *)
Definition dateFieldOf (column : SortColumn) : option string :=
  match column with
  | ship_date => Some "last_updated_at"
  | App.estimated_delivery => Some "estimated_delivery"
  | _ => None
  end.

Definition timeOf (h : Host) (field : string) (t : gmap string string) : Z :=
  default 0 (timeOr0 h (t !! field)).

(** The two tests of [filterTrackings]: by status, when a status is
    selected, and by search text, when the trimmed text is not empty. *)
Definition statusAccepts (statuses : list string) (t : gmap string string) : bool :=
  match statuses with
  | [] => true
  | _ :: _ => hasStatus statuses t
  end.

Definition searchAccepts (h : Host) (search : string) (t : gmap string string) : bool :=
  match trim search with
  | EmptyString => true
  | String _ _ => matchesSearch h (trim (toLowerCase search)) t
  end.

(** Printable ASCII characters other than the space. *)
Definition url_safe (c : ascii) : bool :=
  let n := N_of_ascii c in (33 <=? n)%N && (n <=? 126)%N.

(** The shape of a tracking link for the encoded component [enc]: an
    [https] address of printable characters that contains [enc]. *)
Definition linkFor (enc url : string) : Prop :=
  startsWith url "https://" = true
  /\ all_chars url_safe url = true
  /\ includes url enc = true.

(** The derived fields of a record agree with its own source fields. *)
Definition coherent (h : Host) (t : gmap string string) : Prop :=
  (exists id, t !! "id" = Some id /\ id <> ""
              /\ forall o, t !! "order_id" = Some o -> o <> "" -> id = o)
  /\ (exists slug, t !! "slug" = Some slug /\ toLowerCase slug = slug)
  /\ (exists est, t !! "estimated_delivery" = Some est
                  /\ t !! "tag" = Some (determineStatus h est))
  /\ (exists name, t !! "recipient_name" = Some name
                   /\ t !! "checkpoint_location" = Some name
                   /\ t !! "destination_city"
                      = Some (or_str (city (parseDestination name)) "")
                   /\ t !! "destination_state"
                      = Some (or_str (state (parseDestination name)) "")).

(** * Properties *)

(** Quotient and remainder of a division by a constant, for [lia]. *)
Ltac euclid a b :=
  pose proof (Z.div_mod a b ltac:(lia));
  pose proof (Z.mod_pos_bound a b ltac:(lia)).

(** Replace a decision on closed terms by its value. *)
Ltac eval_bool_decide :=
  match goal with
  | |- context [bool_decide ?P] =>
      let b := eval vm_compute in (bool_decide P) in
      change (bool_decide P) with b; cbv iota
  end.

(** ** The model at work *)

Section Examples.

Example trim_example : trim "  1Z 999 " = "1Z 999" /\ trim "   " = "".
Proof. split; reflexivity. Qed.

Example split_example :
  split is_dash_or_comma "Acme Site - Chicago, IL"
  = ["Acme Site "; " Chicago"; " IL"].
Proof. reflexivity. Qed.

Example includes_example :
  includes "order a1" "a1" = true /\ includes "order a1" "a2" = false.
Proof. split; reflexivity. Qed.

Example MakeDay_example :
  MakeDay 1970 0 1 = 0 /\ MakeDay 2000 0 1 = 10957
  /\ MakeDay 2024 2 1 - MakeDay 2024 1 1 = 29
  /\ MakeDay 2025 (-1) 1 = MakeDay 2024 11 1
  /\ MakeDay 2025 0 0 = MakeDay 2024 11 31.
Proof. repeat split; reflexivity. Qed.

Example statePattern_example :
  statePattern "Acme Site - Chicago, IL" = Some "IL"
  /\ statePattern "Acme Site" = None
  /\ statePattern "HQ2 Dock, TX" = Some "TX".
Proof. repeat split; reflexivity. Qed.

(** The sample load keeps two of the three orders: the second one has a
    blank tracking number. *)
Example sample_load :
  loadTrackings Sample.host = Ok Sample.trackings
  /\ length Sample.trackings = 2%nat
  /\ (fun t : gmap string string => t !! "id") <$> Sample.trackings
     = [Some "A1"; Some "tracking-2"].
Proof. split; [reflexivity|]. by vm_compute. Qed.

(** With the sample supplemental rows, the first order receives the note
    of the row that carries its order number. *)
Example sample_merge :
  (fun t : gmap string string => t !! "note")
    <$> reconcile Sample.host Sample.orders Sample.additional
  = [Some "matched by order number"; None].
Proof. by vm_compute. Qed.

End Examples.

(** ** Strings *)

Section Strings.

Lemma whitespace_only_trimStart s :
  whitespace_only s = true -> trimStart s = "".
Proof.
  induction s as [|c s IH]; simpl; [done|].
  intros [Hc Hs]%andb_prop. rewrite Hc. auto.
Qed.

Lemma trimEnd_empty s : trimEnd s = "" -> whitespace_only s = true.
Proof.
  induction s as [|c s IH]; simpl; [done|].
  destruct (trimEnd s) eqn:E; [|done].
  destruct (is_whitespace c); [|done].
  intros _. by rewrite IH.
Qed.

Lemma whitespace_only_trimStart_inv s :
  whitespace_only (trimStart s) = true -> whitespace_only s = true.
Proof.
  induction s as [|c s IH]; simpl; [done|].
  destruct (is_whitespace c) eqn:Hc; simpl; [auto|].
  by rewrite Hc.
Qed.

(** [s.trim() === ''] exactly when [s] consists of white space only. *)
Lemma trim_empty_iff s : trim s = "" <-> whitespace_only s = true.
Proof.
  unfold trim. split.
  - intros H%trimEnd_empty. by apply whitespace_only_trimStart_inv.
  - intros H. by rewrite (whitespace_only_trimStart s H).
Qed.

Lemma startsWith_trimEnd s : startsWith s (trimEnd s) = true.
Proof.
  induction s as [|c s IH]; simpl; [done|].
  destruct (trimEnd s) eqn:E.
  - destruct (is_whitespace c); simpl; [done|].
    by rewrite bool_decide_eq_true_2.
  - simpl. by rewrite bool_decide_eq_true_2.
Qed.

Lemma includes_startsWith s p : startsWith s p = true -> includes s p = true.
Proof. destruct s; simpl; intros ->; done. Qed.

Lemma includes_cons c s p : includes s p = true -> includes (String c s) p = true.
Proof. simpl. intros ->. by rewrite orb_true_r. Qed.

Lemma includes_trimStart s p :
  includes (trimStart s) p = true -> includes s p = true.
Proof.
  induction s as [|c s IH]; [done|].
  cbn [trimStart]. destruct (is_whitespace c); [|done].
  intros H. apply includes_cons. auto.
Qed.

(** A string contains its own trimmed form. *)
Lemma includes_trim s : includes s (trim s) = true.
Proof.
  apply includes_trimStart, includes_startsWith, startsWith_trimEnd.
Qed.

Lemma toLowerCase_empty s : toLowerCase s = "" -> s = "".
Proof. by destruct s. Qed.

End Strings.

(** ** The merge of supplemental fields *)

Section Merge.

Lemma foldl_mergeKey_lookup (l : list (string * string)) :
  NoDup l.*1 ->
  forall (acc : gmap string string) k,
    foldl mergeKey acc l !! k =
    match acc !! k with
    | Some v => Some v
    | None =>
        match (list_to_map l : gmap string string) !! k with
        | Some (String c s) => Some (String c s)
        | _ => None
        end
    end.
Proof.
  induction l as [|[k' v'] l IH]; intros Hnd acc k; simpl.
  - rewrite lookup_empty. by destruct (acc !! k).
  - inversion Hnd as [|? ? Hk' Hl]; subst.
    rewrite IH by done. unfold mergeKey; simpl.
    destruct (decide (k = k')) as [->|Hne].
    + rewrite lookup_insert_eq. destruct (acc !! k') eqn:E.
      { rewrite bool_decide_eq_false_2 by congruence. simpl. by rewrite E. }
      rewrite bool_decide_eq_true_2 by done. simpl.
      destruct v'; simpl.
      * rewrite E. by rewrite not_elem_of_list_to_map_1.
      * by rewrite lookup_insert_eq.
    + rewrite (lookup_insert_ne _ k' k) by done.
      destruct (andb _ _); [|done].
      by rewrite lookup_insert_ne.
Qed.

(** After the merge a key holds the base value when the base record has
    the key, and otherwise the supplemental value when that is truthy. *)
Lemma mergeAdditional_lookup (base info : gmap string string) k :
  mergeAdditional base info !! k =
  match base !! k with
  | Some v => Some v
  | None =>
      match info !! k with
      | Some (String c s) => Some (String c s)
      | _ => None
      end
  end.
Proof.
  unfold mergeAdditional.
  rewrite foldl_mergeKey_lookup by apply NoDup_fst_map_to_list.
  by rewrite list_to_map_to_list.
Qed.

Context (h : Host) (r : gmap string string) (index : nat).

Lemma baseTracking_keys :
  Forall (fun k => is_Some (baseTracking h r index !! k)) baseKeys.
Proof.
  unfold baseTracking, baseKeys. cbn [list_to_map foldr uncurry fst snd].
  repeat (apply Forall_cons_2; [by simplify_map_eq|]). apply Forall_nil_2.
Qed.

Lemma baseTracking_tracking_number :
  baseTracking h r index !! "tracking_number"
  = Some (or_str (r !! "tracking_number") "").
Proof.
  unfold baseTracking. cbn [list_to_map foldr uncurry fst snd].
  by simplify_map_eq.
Qed.

Lemma baseTracking_tag :
  baseTracking h r index !! "tag"
  = Some (determineStatus h (or_str (r !! "estimated_delivery") "")).
Proof.
  unfold baseTracking. cbn [list_to_map foldr uncurry fst snd].
  by simplify_map_eq.
Qed.

End Merge.

(** ** Reconciliation *)

Section Reconciliation.

Context (h : Host) (ordersData additionalData : list (gmap string string)).

Lemma keepTracking_nonblank (t : gmap string string) :
  keepTracking t = true <->
  exists tn, t !! "tracking_number" = Some tn /\ nonblank tn.
Proof.
  unfold keepTracking, nonblank. split.
  - destruct (t !! "tracking_number") as [[|c s]|] eqn:E; try done.
    intros Hk. exists (String c s). repeat split; [done|].
    apply negb_true_iff, bool_decide_eq_false in Hk.
    destruct (whitespace_only (String c s)) eqn:W; [|done].
    by apply trim_empty_iff in W.
  - intros (tn & -> & Hne & W). destruct tn as [|c s]; [done|].
    apply negb_true_iff, bool_decide_eq_false.
    intros Ht%trim_empty_iff. congruence.
Qed.

Lemma elem_of_reconcile t :
  t ∈ reconcile h ordersData additionalData <->
  (exists index r, ordersData !! index = Some r
                   /\ t = buildTracking h additionalData index r)
  /\ keepTracking t = true.
Proof.
  unfold reconcile. rewrite list_elem_of_In, filter_In, <- list_elem_of_In.
  rewrite elem_of_lookup_imap. split.
  - intros [(index & r & -> & Hr) Hk]. eauto.
  - intros [(index & r & Hr & ->) Hk]. eauto.
Qed.

Lemma buildTracking_tracking_number index r :
  buildTracking h additionalData index r !! "tracking_number"
  = Some (or_str (r !! "tracking_number") "").
Proof.
  unfold buildTracking.
  by rewrite mergeAdditional_lookup, baseTracking_tracking_number.
Qed.

(** C1. Whatever the primary and supplemental rows are, the records that
    [loadTrackings] returns from them are exactly the constructed records
    whose [tracking_number] is neither empty nor made of white space only:
    every returned record has such a tracking number (the one of its
    primary row), and a constructed record without one is dropped. *)
Theorem reconcile_tracking_number_nonblank t :
  t ∈ reconcile h ordersData additionalData <->
  exists index r tn,
    ordersData !! index = Some r
    /\ t = buildTracking h additionalData index r
    /\ t !! "tracking_number" = Some tn
    /\ tn = or_str (r !! "tracking_number") ""
    /\ nonblank tn.
Proof.
  rewrite elem_of_reconcile, keepTracking_nonblank. split.
  - intros [(index & r & Hr & ->) (tn & Htn & Hnb)].
    exists index, r, tn. do 3 (split; [done|]). split; [|done].
    rewrite buildTracking_tracking_number in Htn. congruence.
  - intros (index & r & tn & Hr & -> & Htn & _ & Hnb). eauto 10.
Qed.

(** A row of [additionalDataMap] is a supplemental row, stored under its
    lower-cased key. *)
Lemma additionalDataMap_lookup_Some k x :
  additionalDataMap additionalData !! k = Some x ->
  x ∈ additionalData /\ additionalKey x <> ""
  /\ toLowerCase (additionalKey x) = k.
Proof.
  unfold additionalDataMap. clear ordersData.
  induction additionalData as [|r l IH] using rev_ind; [done|].
  rewrite foldl_app. simpl.
  destruct (additionalKey r) as [|c s] eqn:E.
  - intros H. destruct (IH H) as (? & ? & ?).
    split; [|done]. apply elem_of_app. by left.
  - destruct (decide (toLowerCase (String c s) = k)) as [<-|Hne].
    + rewrite lookup_insert_eq. intros [= <-]. rewrite E.
      split; [|done]. apply elem_of_app. right. by apply list_elem_of_singleton.
    + rewrite lookup_insert_ne by done.
      intros H. destruct (IH H) as (? & ? & ?).
      split; [|done]. apply elem_of_app. by left.
Qed.

(** C2. The supplemental row matched with the primary row at position
    [index] is the first hit of: the lookup by the lower-cased order number,
    by the lower-cased tracking number, by the lower-cased PO number, the
    supplemental row at [index], the empty row.  In particular, when the
    lookup has an entry for the order number and another one for the
    tracking number, the entry for the order number is used. *)
Theorem additionalInfo_precedence (r : gmap string string) (index : nat) :
  let m := additionalDataMap additionalData in
  let byOrder := m !! toLowerCase (or_str (r !! "order_number") "") in
  let byTracking := m !! toLowerCase (or_str (r !! "tracking_number") "") in
  let byPO := m !! toLowerCase (or_str (r !! "po_number") "") in
  let info := additionalInfo additionalData r index in
  info = match byOrder with
         | Some x => x
         | None =>
             match byTracking with
             | Some x => x
             | None =>
                 match byPO with
                 | Some x => x
                 | None =>
                     match additionalData !! index with
                     | Some x => x
                     | None => ∅
                     end
                 end
             end
         end
  /\ (forall x y,
        byOrder = Some x -> byTracking = Some y -> x <> y ->
        info = x /\ info <> y).
Proof.
  intros m byOrder byTracking byPO info.
  assert (info = default ∅ (or_obj byOrder (or_obj byTracking (or_obj byPO
            (Some (default ∅ (additionalData !! index))))))) as -> by done.
  split.
  - by destruct byOrder, byTracking, byPO, (additionalData !! index).
  - intros x y -> -> Hxy. by split.
Qed.

(** C3. In the record built for a primary row, a key holds the value of
    the base record whenever the base record defines the key; a key the
    base record lacks holds the value of the matched supplemental row when
    that value is non-empty, and is absent otherwise.  Every named base
    field, [title] among them, is defined by the base record and so keeps
    its base value whatever the supplemental row holds. *)
Theorem buildTracking_merge_policy (index : nat) (r : gmap string string) :
  let base := baseTracking h r index in
  let info := additionalInfo additionalData r index in
  let t := buildTracking h additionalData index r in
  (forall k,
     t !! k = match base !! k with
              | Some v => Some v
              | None => match info !! k with
                        | Some (String c s) => Some (String c s)
                        | _ => None
                        end
              end)
  /\ Forall (fun k => is_Some (base !! k) /\ t !! k = base !! k) baseKeys
  /\ t !! "title" = base !! "title".
Proof.
  intros base info t.
  assert (forall k, is_Some (base !! k) -> t !! k = base !! k) as Hbase.
  { intros k [v Hv]. unfold t, buildTracking. fold base info.
    by rewrite mergeAdditional_lookup, Hv. }
  split; [|split].
  - intros k. apply mergeAdditional_lookup.
  - eapply Forall_impl; [apply baseTracking_keys|]. simpl. intros k Hk. eauto.
  - apply Hbase.
    pose proof (baseTracking_keys h r index) as HF.
    rewrite Forall_forall in HF. apply HF. unfold baseKeys. repeat constructor.
Qed.

End Reconciliation.


(** On the sample rows the first order is matched by its order number,
    although its tracking number and its position select another row. *)
Lemma additionalInfo_precedence_witness :
  additionalInfo Sample.additional
    {[ "order_number" := "A1"; "tracking_number" := "1Z999";
       "carrier" := "UPS"; "estimated_delivery" := "2000-01-01" ]} 0
  = {[ "order_number" := "a1"; "note" := "matched by order number" ]}.
Proof.
  destruct (additionalInfo_precedence Sample.additional
              {[ "order_number" := "A1"; "tracking_number" := "1Z999";
                 "carrier" := "UPS"; "estimated_delivery" := "2000-01-01" ]} 0)
    as [_ H].
  apply (H {[ "order_number" := "a1"; "note" := "matched by order number" ]}
           {[ "tracking_number" := "1z999"; "note" := "matched by tracking number" ]}).
  - vm_compute. reflexivity.
  - vm_compute. reflexivity.
  - intros E.
    apply (f_equal (fun m : gmap string string => m !! "order_number")) in E.
    vm_compute in E. discriminate.
Defined.

(** ** Dates *)

Section Dates.

Lemma is_digit_value c : is_digit c = true -> 0 <= digit_value c <= 9.
Proof.
  unfold is_digit, digit_value.
  intros [H1%N.leb_le H2%N.leb_le]%andb_prop. lia.
Qed.

Lemma take_digits_Number n : forall s ds rest acc,
  take_digits n s = Some (ds, rest) -> 0 <= acc ->
  acc * 10 ^ Z.of_nat n <= Number_go acc ds < (acc + 1) * 10 ^ Z.of_nat n.
Proof.
  induction n as [|n IH]; intros s ds rest acc Ht Hacc.
  - simpl in Ht. injection Ht as <- <-. simpl. lia.
  - simpl in Ht. destruct s as [|c s]; [done|].
    destruct (is_digit c) eqn:Hc; [|done].
    destruct (take_digits n s) as [[ds' rest']|] eqn:E; simpl in Ht; [|done].
    injection Ht as <- <-.
    apply is_digit_value in Hc.
    specialize (IH s ds' rest' (10 * acc + digit_value c) E ltac:(lia)).
    rewrite Nat2Z.inj_succ, Z.pow_succ_r by lia. simpl Number_go.
    assert (0 < 10 ^ Z.of_nat n) by (apply Z.pow_pos_nonneg; lia).
    nia.
Qed.

(** The three groups of a bare date are numbers of four, two and two
    digits. *)
Lemma dateOnlyMatch_Number s year month day :
  dateOnlyMatch s = Some (year, month, day) ->
  0 <= Number year < 10000 /\ 0 <= Number month < 100 /\ 0 <= Number day < 100.
Proof.
  unfold dateOnlyMatch.
  destruct (take_digits 4 s) as [[y s1]|] eqn:Ey; cbn -[take_digits]; [|done].
  destruct (expect "-" s1) as [s2|]; cbn -[take_digits]; [|done].
  destruct (take_digits 2 s2) as [[m s3]|] eqn:Em; cbn -[take_digits]; [|done].
  destruct (expect "-" s3) as [s4|]; cbn -[take_digits]; [|done].
  destruct (take_digits 2 s4) as [[d s5]|] eqn:Ed; cbn -[take_digits]; [|done].
  destruct s5; [|done]. intros [= <- <- <-].
  pose proof (take_digits_Number _ _ _ _ 0 Ey ltac:(lia)).
  pose proof (take_digits_Number _ _ _ _ 0 Em ltac:(lia)).
  pose proof (take_digits_Number _ _ _ _ 0 Ed ltac:(lia)).
  unfold Number. simpl in *. lia.
Qed.

Lemma DayFromMonth_range m leap : 0 <= DayFromMonth m leap <= 335.
Proof. unfold DayFromMonth. destruct leap; repeat case_match; lia. Qed.

(** The day of a bare date is far inside the range of time values. *)
Lemma MakeDay_bare_valid year month day :
  0 <= year < 10000 -> 0 <= month < 100 -> 0 <= day < 100 ->
  validDay (MakeDay (MakeFullYear year) (month - 1) day).
Proof.
  intros Hy Hm Hd. unfold validDay, MakeDay, MakeFullYear, DayFromYear.
  set (fy := if (0 <=? year) && (year <=? 99) then 1900 + year else year).
  assert (0 <= fy < 10000) as Hfy.
  { unfold fy. destruct (0 <=? year), (year <=? 99) eqn:E; simpl; lia. }
  pose proof (DayFromMonth_range ((month - 1) mod 12)
                (InLeapYear (fy + (month - 1) / 12))).
  euclid (month - 1) 12.
  set (ym := fy + (month - 1) / 12) in *.
  euclid (ym - 1969) 4. euclid (ym - 1901) 100. euclid (ym - 1601) 400.
  lia.
Qed.

Lemma Day_midnight d tza :
  Z.abs tza <= msPerDay -> validDay d ->
  TimeClip (d * msPerDay - tza) = Some (d * msPerDay - tza)
  /\ Day (d * msPerDay - tza + tza) = d.
Proof.
  unfold validDay, TimeClip, Day, msPerDay. intros Htza Hd. split.
  - destruct (Z.ltb_spec 8640000000000000 (Z.abs (d * 86400000 - tza)));
      [lia|done].
  - replace (d * 86400000 - tza + tza) with (d * 86400000) by lia.
    apply Z.div_mul. lia.
Qed.

End Dates.

(** ** Delivery status *)

Section Status.

Context (h : Host).
Hypothesis zone_within_a_day : Z.abs (LocalTZA h) <= msPerDay.
Hypothesis today_valid : validDay (today h).

(** [setHours(0, 0, 0, 0)] moves a time value to the midnight that starts
    its local day. *)
Lemma setHours0_Some t :
  validDay (Day (LocalTime h t)) ->
  setHours0 h (Some t) = Some (Day (LocalTime h t) * msPerDay - LocalTZA h).
Proof.
  intros Hd. unfold setHours0, UTC, MakeDate, MakeTime.
  replace (Day (LocalTime h t) * msPerDay
           + (0 * 3600000 + 0 * 60000 + 0 * 1000 + 0) - LocalTZA h)
    with (Day (LocalTime h t) * msPerDay - LocalTZA h) by lia.
  by apply Day_midnight.
Qed.

Lemma setHours0_midnight d :
  validDay d ->
  setHours0 h (Some (d * msPerDay - LocalTZA h))
  = Some (d * msPerDay - LocalTZA h).
Proof.
  intros Hd.
  assert (Day (LocalTime h (d * msPerDay - LocalTZA h)) = d) as Hday
    by (by apply Day_midnight).
  rewrite setHours0_Some by (by rewrite ?Hday). by rewrite Hday.
Qed.

Lemma determineStatus_parsed s d :
  s <> "" -> parsedDay h (trim s) = Some d -> validDay d ->
  determineStatus h s = statusOfDay d (today h).
Proof.
  intros Hs Hp Hd. unfold determineStatus.
  destruct s as [|c s]; [done|].
  rewrite (setHours0_Some (now h)) by done. fold (today h).
  assert (setHours0 h
            match dateOnlyMatch (trim (String c s)) with
            | Some (year, month, day) =>
                Date_of_components h (Number year) (Number month - 1) (Number day)
            | None => Date_parse h (trim (String c s))
            end = Some (d * msPerDay - LocalTZA h)) as ->.
  { unfold parsedDay in Hp.
    destruct (dateOnlyMatch _) as [[[y m] dd]|].
    - injection Hp as Hp. unfold Date_of_components, UTC, MakeDate, MakeTime.
      rewrite Hp.
      replace (d * msPerDay + (0 * 3600000 + 0 * 60000 + 0 * 1000 + 0)
               - LocalTZA h)
        with (d * msPerDay - LocalTZA h) by lia.
      destruct (Day_midnight d (LocalTZA h) zone_within_a_day Hd) as [-> _].
      by apply setHours0_midnight.
    - destruct (Date_parse h _) as [t|]; [|done]. injection Hp as Hp.
      rewrite setHours0_Some by (by rewrite ?Hp). by rewrite Hp. }
  unfold num_lt, num_eq, statusOfDay, msPerDay.
  destruct (Z.ltb_spec d (today h)), (Z.eqb_spec d (today h));
    repeat case_match; try done;
    repeat match goal with
           | H : (_ <? _) = true |- _ => apply Z.ltb_lt in H
           | H : (_ <? _) = false |- _ => apply Z.ltb_ge in H
           | H : (_ =? _) = true |- _ => apply Z.eqb_eq in H
           | H : (_ =? _) = false |- _ => apply Z.eqb_neq in H
           end; lia.
Qed.

Lemma determineStatus_unparseable s :
  parsedDay h (trim s) = None -> determineStatus h s = "in_transit".
Proof.
  unfold parsedDay, determineStatus. destruct s as [|c s]; [done|].
  destruct (dateOnlyMatch _) as [[[y m] d]|]; [done|].
  by destruct (Date_parse h _).
Qed.

(** C4. [determineStatus] answers [in_transit] for the empty text and for
    a text no day can be read from.  A bare [YYYY-MM-DD] text is read as
    the local day made of its three numbers, independently of the time
    zone, and any text a day [d] is read from gives [delivered] when [d]
    is before today, [out_for_delivery] when it is today and [in_transit]
    when it is after today.  So, on a clock between 2000-01-02 and
    2098-12-31 and with a parser that rejects ["not-a-date"]:
    ["2000-01-01"] is [delivered], ["2099-01-01"], [""] and ["not-a-date"]
    are [in_transit]. *)
Theorem determineStatus_by_day :
  determineStatus h "" = "in_transit"
  /\ (forall s, parsedDay h (trim s) = None -> determineStatus h s = "in_transit")
  /\ (forall s year month day,
        s <> "" -> dateOnlyMatch (trim s) = Some (year, month, day) ->
        let d := MakeDay (MakeFullYear (Number year)) (Number month - 1) (Number day) in
        parsedDay h (trim s) = Some d
        /\ (d < today h -> determineStatus h s = "delivered")
        /\ (d = today h -> determineStatus h s = "out_for_delivery")
        /\ (today h < d -> determineStatus h s = "in_transit"))
  /\ (forall s d,
        s <> "" -> parsedDay h (trim s) = Some d -> validDay d ->
        (d < today h -> determineStatus h s = "delivered")
        /\ (d = today h -> determineStatus h s = "out_for_delivery")
        /\ (today h < d -> determineStatus h s = "in_transit"))
  /\ (MakeDay 2000 0 1 < today h < MakeDay 2099 0 1 ->
      Date_parse h "not-a-date" = None ->
      determineStatus h "2000-01-01" = "delivered"
      /\ determineStatus h "2099-01-01" = "in_transit"
      /\ determineStatus h "not-a-date" = "in_transit").
Proof.
  assert (forall s d,
            s <> "" -> parsedDay h (trim s) = Some d -> validDay d ->
            (d < today h -> determineStatus h s = "delivered")
            /\ (d = today h -> determineStatus h s = "out_for_delivery")
            /\ (today h < d -> determineStatus h s = "in_transit")) as Hday.
  { intros s d Hs Hp Hd.
    rewrite (determineStatus_parsed s d) by done. unfold statusOfDay.
    destruct (Z.ltb_spec d (today h)), (Z.eqb_spec d (today h));
      repeat split; intros; try done; lia. }
  split; [done|]. split; [apply determineStatus_unparseable|].
  split; [|split; [exact Hday|]].
  - intros s year month day Hs Hm d.
    assert (parsedDay h (trim s) = Some d) as Hp
      by (unfold parsedDay; by rewrite Hm).
    split; [done|]. apply Hday; [done..|].
    apply dateOnlyMatch_Number in Hm as (? & ? & ?).
    by apply MakeDay_bare_valid.
  - intros Hrange Hnad. split; [|split].
    + apply (Hday "2000-01-01" (MakeDay 2000 0 1)); [done|done| |lia].
      by vm_compute.
    + apply (Hday "2099-01-01" (MakeDay 2099 0 1)); [done|done| |lia].
      by vm_compute.
    + apply determineStatus_unparseable.
      unfold parsedDay. change (trim "not-a-date") with "not-a-date".
      change (dateOnlyMatch "not-a-date") with (@None (string * string * string)).
      by rewrite Hnad.
Qed.

End Status.

Section StatusValues.

(** The sample host meets the hypotheses of C4: the four texts of the
    claim get the stated status. *)
Lemma determineStatus_by_day_witness :
  determineStatus Sample.host "2000-01-01" = "delivered"
  /\ determineStatus Sample.host "2099-01-01" = "in_transit"
  /\ determineStatus Sample.host "" = "in_transit"
  /\ determineStatus Sample.host "not-a-date" = "in_transit".
Proof.
  destruct (determineStatus_by_day Sample.host) as (He & _ & _ & _ & Hc).
  - vm_compute. discriminate.
  - vm_compute. reflexivity.
  - destruct Hc as (H1 & H2 & H3).
    + split; vm_compute; reflexivity.
    + vm_compute. reflexivity.
    + repeat split; assumption.
Defined.

Context (h : Host).

Lemma determineStatus_cases s :
  determineStatus h s = "delivered"
  \/ determineStatus h s = "out_for_delivery"
  \/ determineStatus h s = "in_transit".
Proof. unfold determineStatus. repeat case_match; auto. Qed.

(** C10. Whatever the text, [determineStatus] answers [delivered],
    [out_for_delivery] or [in_transit], so a reconciled record never has
    the tag [pending] or [exception], two tags for which [getStatusColor]
    keeps a colour of their own.  Each of the three answers occurs (on the
    sample host, whose clock reads 2026-11-02). *)
Theorem determineStatus_three_tags
    s (ordersData additionalData : list (gmap string string)) :
  determineStatus h s ∈ ["delivered"; "out_for_delivery"; "in_transit"]
  /\ determineStatus h s <> "pending" /\ determineStatus h s <> "exception"
  /\ Forall (fun t : gmap string string =>
               exists tag, t !! "tag" = Some tag
                 /\ tag ∈ ["delivered"; "out_for_delivery"; "in_transit"]
                 /\ tag <> "pending" /\ tag <> "exception")
       (reconcile h ordersData additionalData)
  /\ getStatusColor (Some "pending") <> getStatusColor (Some "unknown")
  /\ getStatusColor (Some "exception") <> getStatusColor (Some "unknown")
  /\ (determineStatus Sample.host "2000-01-01" = "delivered"
      /\ determineStatus Sample.host "2026-11-02" = "out_for_delivery"
      /\ determineStatus Sample.host "2099-01-01" = "in_transit").
Proof.
  assert (forall s, determineStatus h s ∈ ["delivered"; "out_for_delivery"; "in_transit"]
                    /\ determineStatus h s <> "pending"
                    /\ determineStatus h s <> "exception") as Htags.
  { intros s'. destruct (determineStatus_cases s') as [-> | [-> | ->]];
      (split; [repeat constructor | by split]). }
  destruct (Htags s) as (? & ? & ?).
  do 3 (split; [done|]). split; [|by repeat split].
  apply Forall_forall. intros t [(index & r & _ & ->) _]%elem_of_reconcile.
  exists (determineStatus h (or_str (r !! "estimated_delivery") "")).
  split; [|apply Htags].
  unfold buildTracking. by rewrite mergeAdditional_lookup, baseTracking_tag.
Qed.

(** C5 (the code differs from the claim on the first text). For
    ["Acme Site - Chicago, IL"] the state is ["IL"] but the city is the
    first part that is not a state code, the site name ["Acme Site"], not
    ["Chicago"]; for ["Acme Site"] the result has neither city nor state. *)
Theorem parseDestination_examples :
  parseDestination "Acme Site - Chicago, IL"
  = {| city := Some "Acme Site"; state := Some "IL" |}
  /\ parseDestination "Acme Site" = {| city := None; state := None |}.
Proof. split; reflexivity. Qed.

End StatusValues.

(** ** Loading *)

Section Loading.

Context (h : Host).

Lemma loadCSVFile_rejected path message :
  fetch h (urlOf h path) = Rejected message ->
  loadCSVFile h path = Err message.
Proof. intros Hf. unfold loadCSVFile. fold (urlOf h path). by rewrite Hf. Qed.

Lemma loadCSVFile_primary_not_ok statusText text :
  fetch h (urlOf h csvPath) = Response false statusText text ->
  loadCSVFile h csvPath = Err ("Failed to load CSV: " +:+ statusText).
Proof.
  intros Hf. unfold loadCSVFile. fold (urlOf h csvPath). by rewrite Hf.
Qed.

Lemma loadCSVFile_additional_failed :
  fetchFailed h additionalCsvPath ->
  catch_empty (loadCSVFile h additionalCsvPath) = Ok [].
Proof.
  unfold fetchFailed, urlOf, loadCSVFile.
  intros [[message ->] | (statusText & text & ->)]; [done|].
  by rewrite bool_decide_eq_true_2.
Qed.

(** C8. When the fetch of the primary file fails, [loadTrackings] fails
    with one error whose message wraps the underlying one (the message of
    the rejection, or ["Failed to load CSV: "] followed by the status
    text), and returns no record.  When the fetch of the supplemental file
    fails, its rows are the empty sequence and the load goes on with the
    primary rows alone. *)
Theorem loadTrackings_fetch_failure :
  (forall message,
     fetch h (urlOf h csvPath) = Rejected message ->
     loadCSVFile h csvPath = Err message
     /\ loadTrackings h = Err ("Failed to load CSV file: " +:+ message))
  /\ (forall statusText text,
        fetch h (urlOf h csvPath) = Response false statusText text ->
        loadCSVFile h csvPath = Err ("Failed to load CSV: " +:+ statusText)
        /\ loadTrackings h
           = Err ("Failed to load CSV file: " +:+ "Failed to load CSV: "
                  +:+ statusText))
  /\ (fetchFailed h csvPath -> forall ts, loadTrackings h <> Ok ts)
  /\ (fetchFailed h additionalCsvPath ->
      catch_empty (loadCSVFile h additionalCsvPath) = Ok []
      /\ forall ordersData,
           loadCSVFile h csvPath = Ok ordersData ->
           loadTrackings h = Ok (reconcile h ordersData [])).
Proof.
  split; [|split; [|split]].
  - intros message Hf%loadCSVFile_rejected. split; [done|].
    unfold loadTrackings. by rewrite Hf.
  - intros statusText text Hf%loadCSVFile_primary_not_ok. split; [done|].
    unfold loadTrackings. by rewrite Hf.
  - intros [[message Hf%loadCSVFile_rejected]
           | (statusText & text & Hf%loadCSVFile_primary_not_ok)] ts;
      unfold loadTrackings; by rewrite Hf.
  - intros Hf. split; [by apply loadCSVFile_additional_failed|].
    intros ordersData Ho. unfold loadTrackings.
    by rewrite Ho, (loadCSVFile_additional_failed Hf).
Qed.

Lemma loadTrackings_Ok ts :
  loadTrackings h = Ok ts ->
  exists ordersData additionalData,
    loadCSVFile h csvPath = Ok ordersData
    /\ catch_empty (loadCSVFile h additionalCsvPath) = Ok additionalData
    /\ ts = reconcile h ordersData additionalData.
Proof.
  unfold loadTrackings, rethrow, mbind, result_bind, mret, result_ret.
  destruct (loadCSVFile h csvPath) as [o|]; [|done].
  destruct (catch_empty _) as [a|]; [|done].
  intros [= <-]. eauto.
Qed.

(** Every record of a successful load has a non-blank tracking number. *)
Lemma loadTrackings_nonblank ts :
  loadTrackings h = Ok ts ->
  Forall (fun t : gmap string string =>
            exists tn, t !! "tracking_number" = Some tn /\ nonblank tn) ts.
Proof.
  intros (o & a & _ & _ & ->)%loadTrackings_Ok.
  apply Forall_forall. intros t [_ Hk]%elem_of_reconcile.
  by apply keepTracking_nonblank.
Qed.

End Loading.

(** Both failures occur on the sample hosts. *)
Lemma loadTrackings_fetch_failure_witness :
  loadTrackings Sample.offline
  = Err "Failed to load CSV file: Failed to load CSV: Not Found"
  /\ loadTrackings Sample.host = Ok (reconcile Sample.host Sample.orders []).
Proof.
  split.
  - destruct (loadTrackings_fetch_failure Sample.offline) as (_ & H & _).
    apply (H "Not Found" ""). reflexivity.
  - destruct (loadTrackings_fetch_failure Sample.host) as (_ & _ & _ & H).
    apply H; [|reflexivity].
    right. exists "Not Found", "". reflexivity.
Defined.

(** ** Sorting *)

Section Sorting.

(** C9. From the unset state, invoking [handleSort] on a column gives
    ascending on that column, again gives descending, and again gives the
    unset state, in which [sortTrackings] leaves the records in their
    order; invoking it on a column other than the current one selects that
    column, ascending. *)
Theorem handleSort_tri_state (column other : SortColumn) (d : option SortDirection) :
  other <> column ->
  let unset := {| sortColumn := None; sortDirection := None |} in
  let s1 := handleSort unset column in
  let s2 := handleSort s1 column in
  let s3 := handleSort s2 column in
  s1 = {| sortColumn := Some column; sortDirection := Some asc |}
  /\ s2 = {| sortColumn := Some column; sortDirection := Some desc |}
  /\ s3 = unset
  /\ (forall h trackings,
        sortTrackings h trackings (sortColumn s3) (sortDirection s3) = trackings)
  /\ handleSort {| sortColumn := Some column; sortDirection := d |} other
     = {| sortColumn := Some other; sortDirection := Some asc |}.
Proof.
  intros Hne. unfold handleSort. simpl.
  rewrite !bool_decide_eq_true_2 by done. simpl.
  rewrite bool_decide_eq_false_2 by congruence. done.
Qed.

Lemma handleSort_tri_state_witness :
  handleSort (handleSort (handleSort
    {| sortColumn := None; sortDirection := None |} ship_date) ship_date) ship_date
  = {| sortColumn := None; sortDirection := None |}
  /\ handleSort {| sortColumn := Some ship_date; sortDirection := Some desc |} carrier
     = {| sortColumn := Some carrier; sortDirection := Some asc |}.
Proof.
  destruct (handleSort_tri_state ship_date carrier (Some desc))
    as (_ & _ & H3 & _ & H5).
  - discriminate.
  - split; [exact H3 | exact H5].
Defined.

Context (h : Host).

(** Without a column or without a direction the records keep their order. *)
Lemma sortTrackings_unset (trackings : list (gmap string string)) column direction :
  sortTrackings h trackings None direction = trackings
  /\ sortTrackings h trackings column None = trackings.
Proof. by destruct column, direction. Qed.

(** On a date column two records whose dates have a time value compare by
    these time values. *)
Lemma compareTrackings_dates (a b : gmap string string) ta tb :
  timeOr0 h (a !! "last_updated_at") = Some ta ->
  timeOr0 h (b !! "last_updated_at") = Some tb ->
  compareTrackings h ship_date asc a b = Some (ta - tb)
  /\ compareTrackings h ship_date desc a b = Some (tb - ta).
Proof.
  intros Ha Hb. unfold compareTrackings. simpl. by rewrite Ha, Hb.
Qed.

(** A missing or empty date counts as time 0. *)
Lemma timeOr0_empty : timeOr0 h None = Some 0 /\ timeOr0 h (Some "") = Some 0.
Proof. done. Qed.

(** C7 (the code differs from the claim on unparseable dates). A date that
    is present but cannot be parsed is not sorted as time 0: its time
    value is NaN, every comparison with it is NaN, which the sort reads as
    "equal", and a record with such a date that comes last stays last in
    an ascending sort, behind a record dated after 1970, before which
    time 0 would have put it. *)
Theorem sortTrackings_unparseable_date (a b : gmap string string) x y tb :
  a !! "last_updated_at" = Some x -> x <> "" -> Date_parse h x = None ->
  b !! "last_updated_at" = Some y -> y <> "" -> Date_parse h y = Some tb ->
  0 < tb ->
  timeOr0 h (a !! "last_updated_at") = None
  /\ compareTrackings h ship_date asc a b = None
  /\ compareTrackings h ship_date asc b a = None
  /\ sortTrackings h [b; a] (Some ship_date) (Some asc) = [b; a]
  /\ sortTrackings h [b; a] (Some ship_date) (Some asc) <> [a; b]
  /\ (exists v, num_sub (Some 0) (Some tb) = Some v /\ v < 0).
Proof.
  intros Ha Hx Hpx Hb Hy Hpy Htb.
  assert (a <> b) as Hab by (intros ->; congruence).
  assert (timeOr0 h (a !! "last_updated_at") = None) as Hta.
  { rewrite Ha. destruct x; [done|]. exact Hpx. }
  assert (timeOr0 h (b !! "last_updated_at") = Some tb) as Htb'.
  { rewrite Hb. destruct y; [done|]. exact Hpy. }
  unfold sortTrackings, Array_sort, compareTrackings. simpl.
  unfold SortCompare, compareTrackings. simpl.
  rewrite Hta, Htb'. simpl. do 4 (split; [congruence|]).
  split; [congruence|]. exists (0 - tb). split; [done|lia].
Qed.

End Sorting.

Lemma sortTrackings_unparseable_date_witness :
  sortTrackings Sample.host
    [ {[ "last_updated_at" := "2020-01-01" ]};
      {[ "last_updated_at" := "not-a-date" ]} ]
    (Some ship_date) (Some asc)
  = [ {[ "last_updated_at" := "2020-01-01" ]};
      {[ "last_updated_at" := "not-a-date" ]} ].
Proof.
  apply (sortTrackings_unparseable_date Sample.host
           {[ "last_updated_at" := "not-a-date" ]}
           {[ "last_updated_at" := "2020-01-01" ]}
           "not-a-date" "2020-01-01" 1577836800000);
    try reflexivity; discriminate.
Defined.

(** ** Searching *)

Section Searching.

Context (h : Host).

Lemma standardValues_named (r : gmap string string) k v :
  k ∈ enumeratedKeys -> k <> "id" -> r !! k = Some v ->
  In (Some (searchedForm h k v)) (standardValues h r).
Proof.
  unfold enumeratedKeys. intros Hk Hn Hr.
  repeat (apply elem_of_cons in Hk as [-> | Hk]);
    [ done
    | unfold searchedForm; eval_bool_decide; rewrite <- Hr;
      unfold standardValues; cbn [In]; tauto ..
    | by apply elem_of_nil in Hk ].
Qed.

Lemma dateKeys_enumerated k : k ∈ dateKeys -> k ∈ enumeratedKeys.
Proof.
  unfold dateKeys, enumeratedKeys. intros Hd.
  repeat (apply elem_of_cons in Hd as [-> | Hd]); [repeat constructor..|].
  by apply elem_of_nil in Hd.
Qed.

Lemma allFieldValues_field (r : gmap string string) k v :
  k <> "id" -> r !! k = Some v -> v <> "" ->
  In (Some (searchedForm h k v)) (allFieldValues h r).
Proof.
  intros Hn Hr Hv. unfold allFieldValues. apply in_app_iff.
  destruct (decide (k ∈ enumeratedKeys)) as [Hk|Hk].
  - left. by apply standardValues_named.
  - right. apply in_flat_map. exists (k, v). split.
    + apply list_elem_of_In. by apply elem_of_map_to_list.
    + unfold additionalValue, searchedForm. simpl.
      rewrite (bool_decide_eq_false_2 (k ∈ enumeratedKeys)) by done.
      rewrite (bool_decide_eq_false_2 (k = "id")) by done.
      rewrite (bool_decide_eq_false_2 (k ∈ dateKeys))
        by (intros Hd; by apply Hk, dateKeys_enumerated).
      destruct v; [done|]. simpl. by left.
Qed.

Lemma matchesSearch_field (r : gmap string string) k v search :
  k <> "id" -> r !! k = Some v -> v <> "" ->
  searchedForm h k v <> "" ->
  toLowerCase search = toLowerCase (searchedForm h k v) ->
  matchesSearch h (trim (toLowerCase search)) r = true.
Proof.
  intros Hn Hr Hv Hf Hs. unfold matchesSearch. apply existsb_exists.
  exists (toLowerCase (searchedForm h k v)). split.
  - unfold searchableFields. apply list_elem_of_In, list_elem_of_fmap.
    exists (Some (searchedForm h k v)).
    split; [by destruct (searchedForm h k v)|].
    apply list_elem_of_In, filter_In. split.
    + by apply allFieldValues_field.
    + by destruct (searchedForm h k v).
  - rewrite Hs. apply includes_trim.
Qed.

(** C6, as amended. With no status selected, a record is kept by the search
    for the value of any of its non-empty fields other than [id], typed in
    any letter case, where the value of a date field ([last_updated_at],
    [estimated_delivery], [checkpoint_date]) is taken as [formatDate]
    displays it. *)
Theorem filterTrackings_search_round_trip
    (trackings : list (gmap string string)) (r : gmap string string) k v search :
  r ∈ trackings -> r !! k = Some v -> v <> "" ->
  k <> "id" ->
  toLowerCase search = toLowerCase (searchedForm h k v) ->
  r ∈ filterTrackings h trackings search [].
Proof.
  intros Hr Hk Hv Hn Hs. unfold filterTrackings. simpl.
  destruct (trim search) eqn:Ht; [done|].
  apply list_elem_of_In, filter_In. split; [by apply list_elem_of_In|].
  apply (matchesSearch_field r k v); try done.
  intros Hf. rewrite Hf in Hs. apply toLowerCase_empty in Hs. by subst.
Qed.

End Searching.

Lemma lastTracking_loaded : Sample.lastTracking ∈ Sample.trackings.
Proof.
  apply elem_of_reconcile. split.
  - eexists 2%nat, _. split; reflexivity.
  - vm_compute. reflexivity.
Qed.

(** On the sample records: the last record is found by its title in
    capitals, and by its delivery date as displayed. *)
Lemma filterTrackings_search_round_trip_witness :
  Sample.lastTracking ∈ filterTrackings Sample.host Sample.trackings "ORDER" []
  /\ Sample.lastTracking
     ∈ filterTrackings Sample.host Sample.trackings "NOV 13, 2025" [].
Proof.
  pose proof lastTracking_loaded as Hin.
  split.
  - apply (filterTrackings_search_round_trip Sample.host Sample.trackings
             Sample.lastTracking "title" "Order" "ORDER");
      [exact Hin | vm_compute; reflexivity | discriminate | discriminate
      | vm_compute; reflexivity].
  - apply (filterTrackings_search_round_trip Sample.host Sample.trackings
             Sample.lastTracking "estimated_delivery" "2025-11-13" "NOV 13, 2025");
      [exact Hin | vm_compute; reflexivity | discriminate | discriminate
      | vm_compute; reflexivity].
Defined.

(** C6 as stated fails on the sample records: the last record is not
    found by the value of its [id], nor by the value of any of its three
    date fields, which are searched as [Nov 10, 2025] and [Nov 13, 2025]. *)
Lemma filterTrackings_search_counterexample :
  Sample.lastTracking ∈ Sample.trackings
  /\ (Sample.lastTracking !! "id" = Some "tracking-2"
      /\ filterTrackings Sample.host Sample.trackings "tracking-2" [] = [])
  /\ (Sample.lastTracking !! "last_updated_at" = Some "2025-11-10"
      /\ filterTrackings Sample.host Sample.trackings "2025-11-10" [] = [])
  /\ (Sample.lastTracking !! "estimated_delivery" = Some "2025-11-13"
      /\ Sample.lastTracking !! "checkpoint_date" = Some "2025-11-13"
      /\ filterTrackings Sample.host Sample.trackings "2025-11-13" [] = []).
Proof.
  split; [apply lastTracking_loaded|].
  vm_compute. repeat split.
Qed.

(** * Further properties *)

(** ** Header normalisation and string facts *)

Section MoreStrings.

Lemma lower_char_idemp c : lower_char (lower_char c) = lower_char c.
Proof. destruct c as [[] [] [] [] [] [] [] []]; reflexivity. Qed.

Lemma is_whitespace_lower_char c :
  is_whitespace (lower_char c) = is_whitespace c.
Proof. destruct c as [[] [] [] [] [] [] [] []]; reflexivity. Qed.

Lemma is_paren_not_whitespace c : is_paren c = true -> is_whitespace c = false.
Proof.
  unfold is_paren. intros [->%bool_decide_eq_true | ->%bool_decide_eq_true]%orb_prop;
    reflexivity.
Qed.

Lemma toLowerCase_idemp s : toLowerCase (toLowerCase s) = toLowerCase s.
Proof. induction s; simpl; [done|]. by rewrite lower_char_idemp, IHs. Qed.

Lemma trimStart_toLowerCase s :
  trimStart (toLowerCase s) = toLowerCase (trimStart s).
Proof.
  induction s as [|c s IH]; simpl; [done|].
  rewrite is_whitespace_lower_char. by destruct (is_whitespace c).
Qed.

Lemma trimEnd_toLowerCase s :
  trimEnd (toLowerCase s) = toLowerCase (trimEnd s).
Proof.
  induction s as [|c s IH]; simpl; [done|].
  rewrite IH, is_whitespace_lower_char.
  destruct (trimEnd s); simpl; [by destruct (is_whitespace c)|done].
Qed.

(** Lower-casing and trimming commute. *)
Lemma trim_toLowerCase s : trim (toLowerCase s) = toLowerCase (trim s).
Proof. unfold trim. by rewrite trimStart_toLowerCase, trimEnd_toLowerCase. Qed.

Lemma trimEnd_idemp s : trimEnd (trimEnd s) = trimEnd s.
Proof.
  induction s as [|c s IH]; simpl; [done|].
  destruct (trimEnd s) as [|c' t] eqn:E.
  - destruct (is_whitespace c) eqn:Hc; simpl; [done|]. by rewrite Hc.
  - simpl in *. by rewrite IH.
Qed.

Lemma trimStart_trimEnd s : trimStart (trimEnd (trimStart s)) = trimEnd (trimStart s).
Proof.
  induction s as [|c s IH]; simpl; [done|].
  destruct (is_whitespace c) eqn:Hc; [done|]. simpl.
  destruct (trimEnd s); simpl; rewrite ?Hc; simpl; by rewrite ?Hc.
Qed.

Lemma trim_idemp s : trim (trim s) = trim s.
Proof. unfold trim. by rewrite trimStart_trimEnd, trimEnd_idemp. Qed.

Lemma all_chars_impl (p q : ascii -> bool) s :
  (forall c, p c = true -> q c = true) -> all_chars p s = true -> all_chars q s = true.
Proof.
  intros Hpq. induction s as [|c s IH]; simpl; [done|].
  intros [Hc Hs]%andb_prop. by rewrite (Hpq c Hc), IH.
Qed.

Lemma trim_no_whitespace s :
  all_chars (fun c => negb (is_whitespace c)) s = true -> trim s = s.
Proof.
  intros H. unfold trim.
  assert (trimStart s = s) as ->.
  { destruct s as [|c s]; [done|]. simpl in *.
    apply andb_prop in H as [Hc _]. by destruct (is_whitespace c). }
  induction s as [|c s IH]; simpl in *; [done|].
  apply andb_prop in H as [Hc Hs]. rewrite (IH Hs).
  destruct s; [|done]. by destruct (is_whitespace c).
Qed.

Lemma toLowerCase_fixed s :
  all_chars (fun c => bool_decide (lower_char c = c)) s = true -> toLowerCase s = s.
Proof.
  induction s as [|c s IH]; simpl; [done|].
  intros [Hc%bool_decide_eq_true Hs]%andb_prop. by rewrite Hc, IH.
Qed.

Lemma replace_space_runs_no_whitespace b s :
  all_chars (fun c => negb (is_whitespace c)) s = true ->
  replace_space_runs b s = s.
Proof.
  revert b. induction s as [|c s IH]; intros b; simpl; [done|].
  intros [Hc Hs]%andb_prop. destruct (is_whitespace c); [done|]. by rewrite IH.
Qed.

Lemma remove_chars_none p s :
  all_chars (fun c => negb (p c)) s = true -> remove_chars p s = s.
Proof.
  induction s as [|c s IH]; simpl; [done|].
  intros [Hc Hs]%andb_prop. destruct (p c); [done|]. by rewrite IH.
Qed.

Lemma all_chars_toLowerCase s :
  all_chars (fun c => bool_decide (lower_char c = c)) (toLowerCase s) = true.
Proof.
  induction s as [|c s IH]; simpl; [done|].
  by rewrite IH, bool_decide_eq_true_2 by apply lower_char_idemp.
Qed.

Lemma all_chars_replace_space_runs (p : ascii -> bool) b s :
  p "_"%char = true -> all_chars p s = true ->
  all_chars p (replace_space_runs b s) = true.
Proof.
  intros Hu. revert b. induction s as [|c s IH]; intros b; simpl; [done|].
  intros [Hc Hs]%andb_prop.
  destruct (is_whitespace c); [destruct b|]; simpl; rewrite ?Hu, ?Hc, IH; done.
Qed.

Lemma replace_space_runs_clean b s :
  all_chars (fun c => negb (is_whitespace c)) (replace_space_runs b s) = true.
Proof.
  revert b. induction s as [|c s IH]; intros b; simpl; [done|].
  destruct (is_whitespace c) eqn:Hc; [destruct b|]; simpl; rewrite ?Hc, ?IH; done.
Qed.

Lemma all_chars_remove_chars (p q : ascii -> bool) s :
  all_chars p s = true -> all_chars p (remove_chars q s) = true.
Proof.
  induction s as [|c s IH]; simpl; [done|].
  intros [Hc Hs]%andb_prop. destruct (q c); simpl; rewrite ?Hc; auto.
Qed.

Lemma remove_chars_clean p s :
  all_chars (fun c => negb (p c)) (remove_chars p s) = true.
Proof.
  induction s as [|c s IH]; simpl; [done|].
  destruct (p c) eqn:Hc; simpl; rewrite ?Hc; done.
Qed.

Lemma transformHeader_normalised header : normalised (transformHeader header).
Proof.
  unfold normalised, transformHeader. split; [|split].
  - apply all_chars_remove_chars, replace_space_runs_clean.
  - apply remove_chars_clean.
  - apply all_chars_remove_chars, all_chars_replace_space_runs; [done|].
    apply all_chars_toLowerCase.
Qed.

Lemma transformHeader_fixed s : normalised s -> transformHeader s = s.
Proof.
  intros (Hw & Hp & Hl). unfold transformHeader.
  by rewrite (trim_no_whitespace s Hw), (toLowerCase_fixed s Hl),
    (replace_space_runs_no_whitespace false s Hw), (remove_chars_none is_paren s Hp).
Qed.

(** X1. Header normalisation is idempotent, and a normalised header is in
    lower case and has no white space and no parenthesis. *)
Theorem transformHeader_idempotent header :
  transformHeader (transformHeader header) = transformHeader header
  /\ normalised (transformHeader header).
Proof.
  split; [|apply transformHeader_normalised].
  apply transformHeader_fixed, transformHeader_normalised.
Qed.

Example transformHeader_example :
  transformHeader "  Recipient (Site)  Name " = "recipient_site_name"
  /\ transformHeader "Tracking Number" = "tracking_number".
Proof. split; reflexivity. Qed.

End MoreStrings.

(** ** The supplemental lookup *)

Section Lookup.

Context (additionalData : list (gmap string string)).

Lemma additionalDataMap_lookup k :
  additionalDataMap additionalData !! k = last (List.filter (keyedBy k) additionalData).
Proof.
  unfold additionalDataMap.
  induction additionalData as [|r l IH] using rev_ind; [done|].
  rewrite foldl_app, List.filter_app. simpl. unfold keyedBy at 2.
  destruct (additionalKey r) as [|c s] eqn:E.
  - rewrite bool_decide_eq_false_2 by (by intros [? _]).
    by rewrite app_nil_r.
  - destruct (decide (toLowerCase (String c s) = k)) as [<-|Hne].
    + rewrite lookup_insert_eq, bool_decide_eq_true_2 by done.
      by rewrite last_snoc.
    + rewrite lookup_insert_ne by done.
      rewrite bool_decide_eq_false_2 by (by intros [_ ?]).
      by rewrite app_nil_r.
Qed.

(** X2. When several supplemental rows have the same lower-cased key, the
    lookup holds the last of them, and a key no row has is absent; so a
    primary row whose order number is the key of several supplemental
    rows is merged with the last of these rows. *)
Theorem additionalDataMap_last_wins (r : gmap string string) (index : nat) k :
  additionalDataMap additionalData !! k
  = last (List.filter (keyedBy k) additionalData)
  /\ match last (List.filter
                   (keyedBy (toLowerCase (or_str (r !! "order_number") "")))
                   additionalData) with
     | Some x => additionalInfo additionalData r index = x
     | None => True
     end.
Proof.
  split; [apply additionalDataMap_lookup|].
  destruct (last _) as [x|] eqn:E; [|done].
  unfold additionalInfo. by rewrite additionalDataMap_lookup, E.
Qed.

(** X3. When no supplemental row has a key (no order number, order id,
    tracking number or PO number), the match is by position alone: the
    primary row at [index] gets the supplemental row at [index], and the
    empty row when there is none. *)
Theorem additionalInfo_positional (r : gmap string string) (index : nat) :
  Forall (fun x => additionalKey x = "") additionalData ->
  additionalInfo additionalData r index = default ∅ (additionalData !! index).
Proof.
  intros Hkeys.
  assert (forall k, additionalDataMap additionalData !! k = None) as Hnone.
  { intros k. rewrite additionalDataMap_lookup.
    induction Hkeys as [|x l Hx _ IH]; [done|]. simpl. unfold keyedBy at 1.
    rewrite bool_decide_eq_false_2; [done|]. by intros [? _]. }
  unfold additionalInfo. by rewrite !Hnone.
Qed.

End Lookup.

Lemma additionalInfo_positional_witness :
  additionalInfo [ {[ "note" := "first" ]}; {[ "note" := "second" ]} ]
    {[ "order_number" := "A1"; "tracking_number" := "1Z999" ]} 1
  = {[ "note" := "second" ]}.
Proof.
  refine (additionalInfo_positional
            [ {[ "note" := "first" ]}; {[ "note" := "second" ]} ] _ 1%nat _).
  repeat constructor.
Defined.

(** ** Loading, whatever fails *)

Section LoadingAlways.

Context (h : Host).

(** The supplemental rows as [loadTrackings] sees them. *)
Lemma catch_empty_Ok {A} (p : result (list A)) :
  catch_empty p = Ok (match p with Ok v => v | Err _ => [] end).
Proof. by destruct p. Qed.

(** X4. The load succeeds exactly when the primary file loads: whatever
    goes wrong with the supplemental file (fetch or parsing), its rows
    count as empty and the primary rows are reconciled alone; an error of
    the primary file is passed on with the prefix of [loadTrackings]. *)
Theorem loadTrackings_supplemental_optional :
  loadTrackings h
  = match loadCSVFile h csvPath with
    | Ok ordersData =>
        Ok (reconcile h ordersData
              match loadCSVFile h additionalCsvPath with
              | Ok additionalData => additionalData
              | Err _ => []
              end)
    | Err message => Err ("Failed to load CSV file: " +:+ message)
    end
  /\ ((exists ts, loadTrackings h = Ok ts)
      <-> exists ordersData, loadCSVFile h csvPath = Ok ordersData).
Proof.
  assert (loadTrackings h
          = match loadCSVFile h csvPath with
            | Ok ordersData =>
                Ok (reconcile h ordersData
                      match loadCSVFile h additionalCsvPath with
                      | Ok additionalData => additionalData
                      | Err _ => []
                      end)
            | Err message => Err ("Failed to load CSV file: " +:+ message)
            end) as Heq.
  { unfold loadTrackings. rewrite catch_empty_Ok.
    by destruct (loadCSVFile h csvPath). }
  split; [exact Heq|]. rewrite Heq.
  destruct (loadCSVFile h csvPath) as [o|m]; split; intros [x Hx]; eauto; done.
Qed.

(** X5. [loadPOItems] never fails: it gives the grouping of the rows of
    the items file, and the empty map when that file cannot be fetched or
    parsed. *)
Theorem loadPOItems_never_fails :
  loadPOItems h
  = Ok match loadCSVFile h poItemsCsvPath with
       | Ok itemsData => groupItems itemsData
       | Err _ => []
       end
  /\ (fetchFailed h poItemsCsvPath -> loadPOItems h = Ok []).
Proof.
  assert (loadPOItems h
          = Ok match loadCSVFile h poItemsCsvPath with
               | Ok itemsData => groupItems itemsData
               | Err _ => []
               end) as Heq.
  { unfold loadPOItems. rewrite catch_empty_Ok.
    by destruct (loadCSVFile h poItemsCsvPath). }
  split; [exact Heq|]. rewrite Heq.
  unfold fetchFailed, loadCSVFile, urlOf.
  by intros [[message ->] | (statusText & text & ->)].
Qed.

End LoadingAlways.

Lemma loadPOItems_never_fails_witness : loadPOItems Sample.host = Ok [].
Proof.
  destruct (loadPOItems_never_fails Sample.host) as [_ H]. apply H.
  right. exists "Not Found", "". reflexivity.
Defined.

(** ** Item grouping *)

Section MapFacts.

Context {V : Type}.
Implicit Types (m : list (string * V)) (k : string).

Lemma Map_get_alter (f : V -> V) k k' m :
  Map_get (Map_alter f k m) k'
  = if decide (k = k') then f <$> Map_get m k' else Map_get m k'.
Proof.
  unfold Map_get, Map_alter.
  destruct (decide (k = k')) as [->|Hne];
    (induction m as [|[k0 v0] m IH]; simpl; [done|]);
    repeat case_bool_decide; simplify_eq/=; done.
Qed.

Lemma Map_get_snoc m k v k' :
  Map_get (m ++ [(k, v)]) k'
  = match Map_get m k' with
    | Some x => Some x
    | None => if decide (k = k') then Some v else None
    end.
Proof.
  unfold Map_get. induction m as [|[k0 v0] m IH]; simpl.
  - case_bool_decide; by case_decide.
  - by case_bool_decide.
Qed.

Lemma Map_get_None m k : Map_get m k = None <-> k ∉ m.*1.
Proof.
  unfold Map_get. induction m as [|[k0 v0] m IH]; simpl.
  - split; [intros _; apply not_elem_of_nil|done].
  - rewrite not_elem_of_cons. case_bool_decide; simpl.
    + split; [done|]. by intros [? _].
    + rewrite IH. split; [|by intros [_ ?]]. intros ?. split; [congruence|done].
Qed.

Lemma Map_alter_keys (f : V -> V) k m : (Map_alter f k m).*1 = m.*1.
Proof.
  unfold Map_alter. induction m as [|[k0 v0] m IH]; [done|].
  rewrite !fmap_cons, IH. simpl. by case_bool_decide.
Qed.

Lemma Map_get_Some_elem_of m k v : (k, v) ∈ m -> NoDup m.*1 -> Map_get m k = Some v.
Proof.
  unfold Map_get. induction m as [|[k0 v0] m IH]; simpl.
  - by intros ?%elem_of_nil.
  - intros [[= -> ->] | Hin]%elem_of_cons Hnd.
    + by rewrite bool_decide_eq_true_2.
    + apply NoDup_cons in Hnd as [Hk0 Hnd].
      case_bool_decide; [|by apply IH]. subst.
      destruct Hk0. apply list_elem_of_fmap. by exists (k, v).
Qed.

End MapFacts.

Section Grouping.

(** The PO number under which a row is grouped. *)
Lemma addItem_get (m : list (string * list POItem)) (r : gmap string string) k :
  Map_get (addItem m r) k
  = if bool_decide (groupedUnder k r)
    then Some (default [] (Map_get m k) ++ [itemOfRow (or_str (r !! "po_number") "") r])
    else Map_get m k.
Proof.
  unfold addItem, groupedUnder.
  destruct (or_str (r !! "po_number") "") as [|c s] eqn:E.
  { by rewrite bool_decide_eq_false_2 by (by intros [? _]). }
  generalize (itemOfRow (String c s) r). intros item.
  generalize (toLowerCase (String c s)). intros key.
  rewrite Map_get_alter. unfold Map_set, Map_has.
  destruct (decide (key = k)) as [->|Hne].
  - rewrite bool_decide_eq_true_2 by done.
    destruct (Map_get m k) as [l|] eqn:G; cbn [negb]; rewrite ?G; [done|].
    by rewrite Map_get_snoc, G, decide_True.
  - rewrite bool_decide_eq_false_2 by (by intros [_ ?]).
    destruct (Map_get m key) as [l|] eqn:G; cbn [negb]; rewrite ?G; [done|].
    rewrite Map_get_snoc. destruct (Map_get m k); [done|].
    by rewrite decide_False.
Qed.

Lemma addItem_keys (m : list (string * list POItem)) (r : gmap string string) :
  NoDup m.*1 -> NoDup (addItem m r).*1.
Proof.
  intros Hnd. unfold addItem.
  destruct (or_str (r !! "po_number") "") as [|c s]; [done|].
  generalize (toLowerCase (String c s)). intros key.
  rewrite Map_alter_keys. unfold Map_set, Map_has.
  destruct (Map_get m key) as [l|] eqn:G; cbn [negb]; rewrite ?G; [done|].
  rewrite fmap_app. apply NoDup_app. split; [done|]. split.
  - intros x Hx ->%list_elem_of_singleton. by apply Map_get_None in G.
  - apply NoDup_singleton.
Qed.

Context (itemsData : list (gmap string string)).

Lemma groupItems_get k :
  Map_get (groupItems itemsData) k
  = match itemsOf k itemsData with
    | [] => None
    | items => Some items
    end.
Proof.
  unfold groupItems, itemsOf.
  induction itemsData as [|r l IH] using rev_ind; [done|].
  rewrite foldl_app, List.filter_app, fmap_app. simpl.
  rewrite addItem_get, IH.
  destruct (bool_decide (groupedUnder k r)); simpl.
  - destruct (_ <$> List.filter _ l); [done|]. done.
  - by rewrite app_nil_r.
Qed.

Lemma groupItems_keys : NoDup (groupItems itemsData).*1.
Proof.
  unfold groupItems.
  induction itemsData as [|r l IH] using rev_ind; [apply NoDup_nil_2|].
  rewrite foldl_app. simpl. by apply addItem_keys.
Qed.

Lemma itemsOf_po k item :
  item ∈ itemsOf k itemsData ->
  CsvService.po_number item <> "" /\ toLowerCase (CsvService.po_number item) = k.
Proof.
  unfold itemsOf. intros (r & -> & Hr)%list_elem_of_fmap.
  apply list_elem_of_In, filter_In in Hr as [_ Hr].
  by apply bool_decide_eq_true in Hr.
Qed.

Lemma groupItems_entry k items :
  (k, items) ∈ groupItems itemsData ->
  items = itemsOf k itemsData /\ items <> []
  /\ Forall (fun item => CsvService.po_number item <> ""
                         /\ toLowerCase (CsvService.po_number item) = k) items.
Proof.
  intros Hin.
  pose proof (Map_get_Some_elem_of _ _ _ Hin groupItems_keys) as Hget.
  rewrite groupItems_get in Hget.
  destruct (itemsOf k itemsData) as [|i l] eqn:E; [done|].
  injection Hget as <-. split; [done|]. split; [done|].
  apply Forall_forall. intros item Hitem. apply itemsOf_po. by rewrite E.
Qed.

(** X6. The items map groups the rows by lower-cased PO number: the list
    kept under a key is made of the items of the rows with that PO number
    (in any letter case), in the order of the rows; rows without PO number
    are left out, no list is empty, every key occurs once, and every item
    lies under the lower-cased form of its own PO number. *)
Theorem groupItems_by_po_number k :
  Map_get (groupItems itemsData) k
  = match itemsOf k itemsData with
    | [] => None
    | items => Some items
    end
  /\ NoDup (groupItems itemsData).*1
  /\ Forall (fun entry : string * list POItem =>
               entry.2 = itemsOf entry.1 itemsData /\ entry.2 <> []
               /\ Forall (fun item =>
                            CsvService.po_number item <> ""
                            /\ toLowerCase (CsvService.po_number item) = entry.1)
                    entry.2)
       (groupItems itemsData).
Proof.
  split; [apply groupItems_get|]. split; [apply groupItems_keys|].
  apply Forall_forall. intros [k' items] Hin. by apply groupItems_entry.
Qed.

End Grouping.

Example groupItems_example :
  groupItems
    [ {[ "po_number" := "PO-7"; "item_name" := "Bolt"; "quantity" := "4" ]};
      {[ "item_name" := "Stray" ]};
      {[ "po_number" := "po-9"; "item_name" := "Nut" ]};
      {[ "po_number" := "po-7"; "item_name" := "Washer" ]} ]
  = [ ("po-7", [ {| CsvService.po_number := "PO-7"; item_name := "Bolt"; part_number := "";
                    description := ""; color := ""; quantity := QString "4" |};
                 {| CsvService.po_number := "po-7"; item_name := "Washer"; part_number := "";
                    description := ""; color := ""; quantity := QNumber 0 |} ]);
      ("po-9", [ {| CsvService.po_number := "po-9"; item_name := "Nut"; part_number := "";
                    description := ""; color := ""; quantity := QNumber 0 |} ]) ].
Proof. by vm_compute. Qed.

(** ** Items and their orders *)

Section ItemsAndOrders.

Context (trackings : list (gmap string string)).

Lemma find_Some_exists {A} (p : A -> bool) (l : list A) x :
  In x l -> p x = true -> exists y, List.find p l = Some y.
Proof.
  intros Hin Hp. destruct (List.find p l) as [y|] eqn:E; [eauto|].
  pose proof (find_none p l E x Hin). congruence.
Qed.

Lemma poNumbersOf_elem_of (keep : gmap string string -> bool) k :
  k ∈ poNumbersOf keep trackings ->
  exists t v, t ∈ trackings /\ keep t = true
              /\ t !! "po_number" = Some v /\ v <> "" /\ toLowerCase v = k.
Proof.
  unfold poNumbersOf. intros (t & -> & Ht)%list_elem_of_fmap.
  apply list_elem_of_In, filter_In in Ht as [Ht [Hk Hpo]%andb_prop].
  unfold hasPO in Hpo. destruct (t !! "po_number") as [[|c s]|] eqn:E; try done.
  exists t, (String c s). by rewrite list_elem_of_In.
Qed.

Lemma findOrderByPONumber_found t v poNumber :
  t ∈ trackings -> t !! "po_number" = Some v ->
  toLowerCase v = toLowerCase poNumber ->
  exists order,
    findOrderByPONumber trackings poNumber = Some order
    /\ order ∈ trackings
    /\ toLowerCase <$> order !! "po_number" = Some (toLowerCase poNumber).
Proof.
  intros Ht Hv Hl. unfold findOrderByPONumber.
  edestruct (find_Some_exists
               (fun t => bool_decide (toLowerCase <$> t !! "po_number"
                                      = Some (toLowerCase poNumber)))
               trackings t) as [order Ho].
  { by apply list_elem_of_In. }
  { apply bool_decide_eq_true. by rewrite Hv, <- Hl. }
  exists order. split; [done|].
  apply find_some in Ho as [Hin Hp]. apply bool_decide_eq_true in Hp.
  by rewrite list_elem_of_In.
Qed.

(** X7. Every item listed for the order-history page or for the tracking
    page has an order: the click on the item finds a loaded record whose
    PO number is the item's, up to letter case, and selects it. *)
Theorem listed_item_has_order
    (itemsData : list (gmap string string)) (onlyDelivered : bool)
    (item : POItem) :
  item ∈ getAllItems trackings (groupItems itemsData) (Some onlyDelivered) ->
  exists order,
    findOrderByPONumber trackings (CsvService.po_number item) = Some order
    /\ order ∈ trackings
    /\ toLowerCase <$> order !! "po_number"
       = Some (toLowerCase (CsvService.po_number item))
    /\ forall selectedTracking,
         handleItemClick trackings selectedTracking item = Some order.
Proof.
  intros Hitem.
  assert (exists keep entry,
            entry ∈ groupItems itemsData /\ item ∈ entry.2
            /\ toLowerCase entry.1 ∈ poNumbersOf keep trackings)
    as (keep & [k items] & Hentry & Hin & Hpo).
  { unfold getAllItems in Hitem. destruct onlyDelivered;
      apply list_elem_of_In, in_flat_map in Hitem as (entry & He & Hi);
      (case_bool_decide; [|done]);
      eexists _, entry;
      (split; [by apply list_elem_of_In|]); (split; [by apply list_elem_of_In|]);
      eassumption. }
  simpl in *.
  apply groupItems_entry in Hentry as (_ & _ & Hall).
  rewrite Forall_forall in Hall. destruct (Hall item Hin) as [_ Hk].
  apply poNumbersOf_elem_of in Hpo as (t & v & Ht & _ & Hv & _ & Hl).
  rewrite <- Hk, toLowerCase_idemp in Hl.
  destruct (findOrderByPONumber_found t v (CsvService.po_number item) Ht Hv Hl)
    as (order & Hfind & Ho & Hpo).
  exists order. do 3 (split; [done|]).
  intros sel. unfold handleItemClick. by rewrite Hfind.
Qed.

End ItemsAndOrders.

Lemma listed_item_has_order_witness :
  exists order,
    findOrderByPONumber Sample.poTrackings "PO-7" = Some order
    /\ order ∈ Sample.poTrackings.
Proof.
  destruct (listed_item_has_order Sample.poTrackings Sample.items true
              (itemOfRow "PO-7" {[ "po_number" := "PO-7"; "item_name" := "Bolt" ]}))
    as (order & Hfind & Hin & _).
  - vm_compute. left.
  - exists order. split; [exact Hfind | exact Hin].
Defined.

(** ** Searching the items *)

Section ItemSearch.

Lemma includes_empty_l p : includes "" p = true -> p = "".
Proof. by destruct p. Qed.

Lemma searchLower_nonempty search :
  trim search <> "" -> trim (toLowerCase search) <> "".
Proof. rewrite trim_toLowerCase. intros H E. by apply toLowerCase_empty in E. Qed.

Lemma fieldValue_searchable column item :
  fieldValue column item <> "" ->
  In (toLowerCase (fieldValue column item)) (itemSearchableFields item).
Proof.
  intros Hv. unfold itemSearchableFields.
  apply list_elem_of_In, list_elem_of_fmap. exists (fieldValue column item).
  split; [done|]. apply list_elem_of_In, filter_In. split.
  - destruct column; simpl in *; try tauto.
    destruct (quantity item) as [s|n]; simpl in *; [tauto|].
    destruct (n =? 0); [done|tauto].
  - by destruct (fieldValue column item).
Qed.

Lemma itemMatches_all searchLower column item :
  searchLower <> "" ->
  itemMatches searchLower column item = true ->
  itemMatches searchLower ItemColumn.all item = true.
Proof.
  intros Hs Hm.
  assert (includes (toLowerCase (fieldValue column item)) searchLower = true
          -> itemMatches searchLower ItemColumn.all item = true) as Himp.
  { intros Hi. simpl. apply existsb_exists.
    exists (toLowerCase (fieldValue column item)). split; [|done].
    apply fieldValue_searchable. intros E. rewrite E in Hi.
    by apply includes_empty_l in Hi. }
  destruct column; auto.
Qed.

Lemma filter_sublist {A} (p q : A -> bool) (l : list A) :
  (forall x, p x = true -> q x = true) ->
  sublist (List.filter p l) (List.filter q l).
Proof.
  intros Hpq. induction l as [|x l IH]; simpl; [constructor|].
  destruct (p x) eqn:Hp.
  - rewrite (Hpq x Hp). by constructor.
  - destruct (q x); [by constructor|done].
Qed.

Lemma filter_sublist_self {A} (p : A -> bool) (l : list A) :
  sublist (List.filter p l) l.
Proof.
  induction l as [|x l IH]; simpl; [constructor|].
  destruct (p x); by constructor.
Qed.

Context (items : list POItem).

(** X8. A blank search keeps every item; otherwise the items found in one
    column are among those found in all columns, which are among the
    items given, in their order. *)
Theorem filterItems_column_within_all search column :
  (trim search = "" -> filterItems items search column = items)
  /\ sublist (filterItems items search column)
             (filterItems items search ItemColumn.all)
  /\ sublist (filterItems items search ItemColumn.all) items.
Proof.
  unfold filterItems. destruct (trim search) as [|c s] eqn:E.
  - split; [done|]. split; reflexivity.
  - split; [done|]. split.
    + apply filter_sublist. intros item. apply itemMatches_all.
      apply searchLower_nonempty. by rewrite E.
    + apply filter_sublist_self.
Qed.

(** X9. An item is found by the text of any of its columns (for the
    quantity, the text that column is searched by), typed in any letter
    case, both when that column is selected and when all columns are. *)
Theorem filterItems_round_trip search column item :
  item ∈ items ->
  fieldValue column item <> "" ->
  toLowerCase search = toLowerCase (fieldValue column item) ->
  item ∈ filterItems items search column
  /\ item ∈ filterItems items search ItemColumn.all.
Proof.
  intros Hin Hv Hs. unfold filterItems.
  destruct (trim search) as [|c s] eqn:E; [done|].
  assert (itemMatches (trim (toLowerCase search)) column item = true) as Hm.
  { assert (includes (toLowerCase (fieldValue column item))
                     (trim (toLowerCase search)) = true) as Hi
      by (rewrite Hs; apply includes_trim).
    by destruct column. }
  rewrite !list_elem_of_In, !filter_In, <- !list_elem_of_In.
  split; [done|]. split; [done|].
  apply (itemMatches_all _ column); [|done].
  apply searchLower_nonempty. by rewrite E.
Qed.

End ItemSearch.

Lemma filterItems_round_trip_witness :
  itemOfRow "PO-7" {[ "po_number" := "PO-7"; "item_name" := "Bolt" ]}
  ∈ filterItems (flat_map snd (groupItems Sample.items)) "BOLT" ItemColumn.item_name.
Proof.
  apply (filterItems_round_trip (flat_map snd (groupItems Sample.items))
           "BOLT" ItemColumn.item_name).
  - vm_compute. left.
  - discriminate.
  - reflexivity.
Defined.

(** ** The status filter and the sort state *)

Section Toggles.

Lemma filter_ne_not_elem_of (status : string) (prev : list string) :
  status ∉ prev ->
  List.filter (fun s => negb (bool_decide (s = status))) prev = prev.
Proof.
  induction prev as [|x l IH]; simpl; [done|].
  intros [Hx Hl]%not_elem_of_cons.
  rewrite bool_decide_eq_false_2 by congruence. simpl. by rewrite IH.
Qed.

Lemma elem_of_filter_ne (status s : string) (prev : list string) :
  s ∈ List.filter (fun s => negb (bool_decide (s = status))) prev
  <-> s ∈ prev /\ s <> status.
Proof.
  rewrite !list_elem_of_In, filter_In, negb_true_iff, bool_decide_eq_false.
  done.
Qed.

Lemma NoDup_List_filter {A} (p : A -> bool) (l : list A) :
  NoDup l -> NoDup (List.filter p l).
Proof.
  induction 1 as [|x l Hx Hnd IH]; simpl; [constructor|].
  destruct (p x); [|done]. constructor; [|done].
  rewrite list_elem_of_In, filter_In, <- list_elem_of_In. by intros [? _].
Qed.

(** X10. Toggling a status flips its membership in the status filter and
    leaves every other status as it was; a filter without repeats stays
    without repeats; switching a status on and off again gives back the
    filter one started from. *)
Theorem toggleStatusFilter_flips (prev : list string) (status s : string) :
  (status ∈ toggleStatusFilter prev status <-> status ∉ prev)
  /\ (s <> status -> (s ∈ toggleStatusFilter prev status <-> s ∈ prev))
  /\ (NoDup prev -> NoDup (toggleStatusFilter prev status))
  /\ (status ∉ prev ->
      toggleStatusFilter (toggleStatusFilter prev status) status = prev).
Proof.
  destruct (decide (status ∈ prev)) as [Hin|Hin].
  - assert (toggleStatusFilter prev status
            = List.filter (fun s => negb (bool_decide (s = status))) prev) as ->
      by (unfold toggleStatusFilter; by rewrite bool_decide_eq_true_2).
    split; [|split; [|split]].
    + rewrite elem_of_filter_ne. split; [by intros [_ ?]|done].
    + intros Hs. rewrite elem_of_filter_ne. split; [by intros [? _]|done].
    + apply NoDup_List_filter.
    + done.
  - assert (toggleStatusFilter prev status = prev ++ [status]) as ->
      by (unfold toggleStatusFilter; by rewrite bool_decide_eq_false_2).
    split; [|split; [|split]].
    + split; [done|]. intros _. apply elem_of_app. right. by apply list_elem_of_singleton.
    + intros Hs. rewrite elem_of_app, list_elem_of_singleton. split; [|by left].
      by intros [?|?].
    + intros Hnd. apply NoDup_app. split; [done|]. split; [|apply NoDup_singleton].
      by intros x Hx ->%list_elem_of_singleton.
    + intros _. unfold toggleStatusFilter.
      rewrite bool_decide_eq_true_2
        by (apply elem_of_app; right; by apply list_elem_of_singleton).
      rewrite List.filter_app, filter_ne_not_elem_of by done. simpl.
      rewrite bool_decide_eq_true_2 by done. simpl. by rewrite app_nil_r.
Qed.

Lemma handleSort_same column direction :
  handleSort {| sortColumn := Some column; sortDirection := direction |} column
  = match direction with
    | Some asc => {| sortColumn := Some column; sortDirection := Some desc |}
    | Some desc => unsetSort
    | None => {| sortColumn := Some column; sortDirection := Some asc |}
    end.
Proof. unfold handleSort. simpl. by rewrite bool_decide_eq_true_2. Qed.

Lemma handleSort_other current direction column :
  current <> Some column ->
  handleSort {| sortColumn := current; sortDirection := direction |} column
  = {| sortColumn := Some column; sortDirection := Some asc |}.
Proof. intros H. unfold handleSort. simpl. by rewrite bool_decide_eq_false_2. Qed.

(** X11. After any sequence of clicks on column headers, starting from
    the unset state, the sort direction is unset exactly when the sort
    column is; and from such a state three clicks on the current column
    (or on any column when none is current) lead back to it. *)
Theorem handleSort_well_formed (clicks : list SortColumn) (column : SortColumn) :
  let st := foldl handleSort unsetSort clicks in
  wellFormedSort st
  /\ (sortColumn st = Some column \/ sortColumn st = None ->
      handleSort (handleSort (handleSort st column) column) column = st).
Proof.
  intros st.
  assert (wellFormedSort st) as Hwf.
  { unfold st. induction clicks as [|c l IH] using rev_ind; [done|].
    rewrite foldl_app. simpl. revert IH.
    generalize (foldl handleSort unsetSort l). intros [sc sd].
    unfold wellFormedSort, handleSort. simpl.
    case_bool_decide; destruct sd as [[]|]; simpl; intros [H1 H2]; split;
      try done; intros; subst; try discriminate; auto. }
  split; [done|]. revert Hwf. generalize st. intros [sc sd].
  unfold wellFormedSort. simpl. intros [H1 H2] [-> | ->].
  - destruct sd as [[]|].
    + rewrite !handleSort_same. unfold unsetSort. by rewrite handleSort_other.
    + rewrite handleSort_same. unfold unsetSort.
      rewrite handleSort_other by done. by rewrite handleSort_same.
    + by specialize (H2 eq_refl).
  - rewrite (H1 eq_refl), handleSort_other by done. by rewrite !handleSort_same.
Qed.

Lemma handleSort_well_formed_witness :
  handleSort (handleSort (handleSort
    {| sortColumn := Some carrier; sortDirection := Some desc |} carrier) carrier) carrier
  = {| sortColumn := Some carrier; sortDirection := Some desc |}.
Proof.
  destruct (handleSort_well_formed [ship_date; carrier; carrier] carrier) as [_ H].
  apply H. by left.
Defined.

End Toggles.

(** ** Sorting, in general *)

Section SortFacts.

Context {A : Type} (comparefn : A -> A -> option Z).

Lemma insert_sorted_Permutation x l : insert_sorted comparefn x l ≡ₚ x :: l.
Proof.
  induction l as [|y l IH]; simpl; [done|].
  destruct (SortCompare comparefn x y <=? 0); [done|].
  rewrite IH. apply Permutation_swap.
Qed.

Lemma Array_sort_Permutation l : Array_sort comparefn l ≡ₚ l.
Proof.
  induction l as [|x l IH]; simpl; [done|].
  fold (Array_sort comparefn l). by rewrite insert_sorted_Permutation, IH.
Qed.


Context (R : A -> A -> Prop) (P : A -> Prop).
Hypothesis R_trans : forall a b c, R a b -> R b c -> R a c.
Hypothesis le_R : forall a b, P a -> P b -> SortCompare comparefn a b <= 0 -> R a b.
Hypothesis gt_R : forall a b, P a -> P b -> ~ SortCompare comparefn a b <= 0 -> R b a.

Lemma insert_sorted_Forall (Q : A -> Prop) x l :
  Q x -> Forall Q l -> Forall Q (insert_sorted comparefn x l).
Proof.
  intros Hx Hl. eapply Permutation_Forall; [|by apply Forall_cons_2].
  symmetry. apply insert_sorted_Permutation.
Qed.

Lemma insert_sorted_StronglySorted x l :
  P x -> Forall P l -> StronglySorted R l ->
  StronglySorted R (insert_sorted comparefn x l).
Proof.
  intros Hx HP Hs. induction Hs as [|y l Hs IH Hy]; simpl.
  - by repeat constructor.
  - apply Forall_cons in HP as [Py HP].
    destruct (Z.leb_spec (SortCompare comparefn x y) 0) as [Hle|Hgt].
    + constructor; [by constructor|]. constructor; [by apply le_R|].
      eapply Forall_impl; [exact Hy|]. intros z Hz. simpl in Hz.
      eapply R_trans; [|exact Hz]. by apply le_R.
    + constructor; [by apply IH|].
      apply insert_sorted_Forall; [|done]. apply gt_R; [done..|lia].
Qed.

Lemma Array_sort_StronglySorted l :
  Forall P l -> StronglySorted R (Array_sort comparefn l).
Proof.
  induction 1 as [|x l Hx Hl IH]; simpl; [constructor|].
  fold (Array_sort comparefn l). apply insert_sorted_StronglySorted; [done| |done].
  eapply Permutation_Forall; [|exact Hl]. symmetry. apply Array_sort_Permutation.
Qed.

End SortFacts.

(** ** Sorting the records *)

Section SortRecords.

Context (h : Host).

Lemma sortTrackings_perm (trackings : list (gmap string string)) column direction :
  sortTrackings h trackings column direction ≡ₚ trackings.
Proof.
  unfold sortTrackings. destruct column, direction; try done.
  apply Array_sort_Permutation.
Qed.

(** X12. Sorting never loses, adds or repeats a record: the result is a
    rearrangement of the records given, whatever the column and the
    direction. *)
Theorem sortTrackings_Permutation
    (trackings : list (gmap string string)) column direction :
  sortTrackings h trackings column direction ≡ₚ trackings
  /\ length (sortTrackings h trackings column direction) = length trackings
  /\ forall t, t ∈ sortTrackings h trackings column direction <-> t ∈ trackings.
Proof.
  pose proof (sortTrackings_perm trackings column direction) as HP.
  split; [done|]. split; [by rewrite HP|]. intros t. by rewrite HP.
Qed.

Lemma compareTrackings_date column field (a b : gmap string string) ta tb :
  dateFieldOf column = Some field ->
  timeOr0 h (a !! field) = Some ta -> timeOr0 h (b !! field) = Some tb ->
  compareTrackings h column asc a b = Some (ta - tb)
  /\ compareTrackings h column desc a b = Some (tb - ta).
Proof.
  intros Hf Ha Hb. unfold compareTrackings.
  destruct column; try done; injection Hf as <-; simpl; by rewrite Ha, Hb.
Qed.

(** X13. On a date column, when the date of every record is empty or can
    be parsed, the ascending sort puts the records in non-decreasing order
    of time and the descending sort in non-increasing order, an empty date
    counting as time 0. *)
Theorem sortTrackings_by_date
    (trackings : list (gmap string string)) column field :
  dateFieldOf column = Some field ->
  Forall (fun t => is_Some (timeOr0 h (t !! field))) trackings ->
  StronglySorted (fun a b => timeOf h field a <= timeOf h field b)
    (sortTrackings h trackings (Some column) (Some asc))
  /\ StronglySorted (fun a b => timeOf h field b <= timeOf h field a)
       (sortTrackings h trackings (Some column) (Some desc)).
Proof.
  intros Hf Hall. unfold sortTrackings.
  assert (forall a b direction,
            is_Some (timeOr0 h (a !! field)) -> is_Some (timeOr0 h (b !! field)) ->
            SortCompare (compareTrackings h column direction) a b
            = match direction with
              | asc => timeOf h field a - timeOf h field b
              | desc => timeOf h field b - timeOf h field a
              end) as Hcmp.
  { intros a b direction [ta Ha] [tb Hb]. unfold SortCompare, timeOf.
    destruct (compareTrackings_date column field a b ta tb Hf Ha Hb) as [H1 H2].
    destruct direction; by rewrite ?H1, ?H2, Ha, Hb. }
  split.
  - apply (Array_sort_StronglySorted _ _
             (fun t => is_Some (timeOr0 h (t !! field)))); [| | |done].
    + intros a b c. lia.
    + intros a b Ha Hb. rewrite Hcmp by done. lia.
    + intros a b Ha Hb. rewrite Hcmp by done. lia.
  - apply (Array_sort_StronglySorted _ _
             (fun t => is_Some (timeOr0 h (t !! field)))); [| | |done].
    + intros a b c. lia.
    + intros a b Ha Hb. rewrite Hcmp by done. lia.
    + intros a b Ha Hb. rewrite Hcmp by done. lia.
Qed.


End SortRecords.

Lemma sortTrackings_by_date_witness :
  (fun t : gmap string string => t !! "last_updated_at")
    <$> sortTrackings Sample.host
          [ {[ "last_updated_at" := "2025-11-10" ]}; {[ "tracking_number" := "9" ]};
            {[ "last_updated_at" := "2020-01-01" ]} ]
          (Some ship_date) (Some asc)
  = [None; Some "2020-01-01"; Some "2025-11-10"].
Proof.
  destruct (sortTrackings_by_date Sample.host
              [ {[ "last_updated_at" := "2025-11-10" ]}; {[ "tracking_number" := "9" ]};
                {[ "last_updated_at" := "2020-01-01" ]} ]
              ship_date "last_updated_at") as [_ _].
  - reflexivity.
  - repeat (apply Forall_cons_2; [eexists; vm_compute; reflexivity|]).
    apply Forall_nil_2.
  - vm_compute. reflexivity.
Defined.


(** ** The pages *)

Section Pages.

Lemma filter_partition_Permutation {A} (p : A -> bool) (l : list A) :
  List.filter p l ++ List.filter (fun x => negb (p x)) l ≡ₚ l.
Proof.
  induction l as [|x l IH]; simpl; [done|].
  destruct (p x); simpl; [by rewrite IH|].
  by rewrite <- Permutation_middle, IH.
Qed.

Context (trackings : list (gmap string string)).

Lemma elem_of_order_history t :
  t ∈ trackingsToShow "order-history" trackings
  <-> t ∈ trackings /\ isDelivered t = true.
Proof.
  unfold trackingsToShow. simpl.
  by rewrite !list_elem_of_In, filter_In.
Qed.

Lemma elem_of_tracking_page t :
  t ∈ trackingsToShow "tracking" trackings
  <-> t ∈ trackings /\ isDelivered t = false.
Proof.
  unfold trackingsToShow. simpl.
  by rewrite !list_elem_of_In, filter_In, negb_true_iff.
Qed.

(** X15. The order-history page and the tracking page split the loaded
    records between them: a record is on the order-history page when its
    tag is [delivered] in any letter case, on the tracking page otherwise,
    never on both and never on neither; any other page keeps them all. *)
Theorem trackingsToShow_partition (page : string) (t : gmap string string) :
  (t ∈ trackingsToShow "order-history" trackings
   <-> t ∈ trackings /\ isDelivered t = true)
  /\ (t ∈ trackingsToShow "tracking" trackings
      <-> t ∈ trackings /\ isDelivered t = false)
  /\ trackingsToShow "order-history" trackings ++ trackingsToShow "tracking" trackings
     ≡ₚ trackings
  /\ (page <> "tracking" -> page <> "order-history" ->
      trackingsToShow page trackings = trackings).
Proof.
  split; [apply elem_of_order_history|]. split; [apply elem_of_tracking_page|].
  split.
  - unfold trackingsToShow. simpl. apply filter_partition_Permutation.
  - intros H1 H2. unfold trackingsToShow.
    by rewrite !bool_decide_eq_false_2.
Qed.

End Pages.

Section PagesByDay.

Context (h : Host).
Hypothesis zone_within_a_day : Z.abs (LocalTZA h) <= msPerDay.
Hypothesis today_valid : validDay (today h).



End PagesByDay.


(** ** Filtering, in general *)

Section FilterFacts.

Lemma filter_filter_same {A} (p : A -> bool) (l : list A) :
  List.filter p (List.filter p l) = List.filter p l.
Proof.
  induction l as [|x l IH]; simpl; [done|].
  destruct (p x) eqn:E; simpl; by rewrite ?E, IH.
Qed.

Lemma filter_filter_comm {A} (p q : A -> bool) (l : list A) :
  List.filter p (List.filter q l) = List.filter q (List.filter p l).
Proof.
  induction l as [|x l IH]; simpl; [done|].
  destruct (p x) eqn:Ep, (q x) eqn:Eq; simpl; by rewrite ?Ep, ?Eq, IH.
Qed.

Lemma filter_true {A} (l : list A) : List.filter (fun _ => true) l = l.
Proof. induction l as [|? ? IH]; simpl; by rewrite ?IH. Qed.

Context (h : Host).

(** The two filters of [filterTrackings], one after the other. *)
Lemma filterTrackings_unfold (l : list (gmap string string)) search statuses :
  filterTrackings h l search statuses
  = List.filter (searchAccepts h search) (List.filter (statusAccepts statuses) l).
Proof.
  unfold filterTrackings, searchAccepts, statusAccepts.
  destruct statuses; simpl; destruct (trim search); by rewrite ?filter_true.
Qed.

Context (trackings : list (gmap string string)).

(** X17. Filtering only removes records: the result keeps the order of
    the records given; with a non-empty status filter every record kept
    has one of the selected tags; filtering twice with the same search and
    statuses changes nothing more; and searching first and selecting the
    statuses afterwards gives the same as doing both at once. *)
Theorem filterTrackings_only_removes search statuses :
  sublist (filterTrackings h trackings search statuses) trackings
  /\ (statuses <> [] ->
      Forall (fun t : gmap string string =>
                exists tag, t !! "tag" = Some tag /\ tag ∈ statuses)
        (filterTrackings h trackings search statuses))
  /\ filterTrackings h (filterTrackings h trackings search statuses) search statuses
     = filterTrackings h trackings search statuses
  /\ filterTrackings h (filterTrackings h trackings search []) "" statuses
     = filterTrackings h trackings search statuses.
Proof.
  rewrite !filterTrackings_unfold. split; [|split; [|split]].
  - etrans; apply filter_sublist_self.
  - intros Hne. apply Forall_forall. intros t Ht.
    apply list_elem_of_In, filter_In in Ht as [Ht _].
    apply filter_In in Ht as [_ Ht].
    unfold statusAccepts in Ht. destruct statuses as [|s l]; [done|].
    unfold hasStatus in Ht. destruct (t !! "tag") as [tag|]; [|done].
    exists tag. by apply bool_decide_eq_true in Ht.
  - rewrite (filter_filter_comm (statusAccepts statuses) (searchAccepts h search)).
    by rewrite !filter_filter_same.
  - unfold searchAccepts at 1, statusAccepts at 2. simpl.
    rewrite !filter_true. apply filter_filter_comm.
Qed.

End FilterFacts.

(** ** Searching, whatever the case and the spaces *)

Section SearchText.

Lemma trim_empty_toLowerCase s s' :
  toLowerCase (trim s) = toLowerCase (trim s') ->
  (trim s = "" <-> trim s' = "").
Proof.
  intros H. split; intros E; rewrite E in H; simpl in H;
    [symmetry in H|]; by apply toLowerCase_empty in H.
Qed.

(** X18. A search depends on its text only up to letter case and
    surrounding white space, for the records and for the items alike. *)
Theorem search_text_normalised
    h (trackings : list (gmap string string)) statuses
    (items : list POItem) column (search search' : string) :
  toLowerCase (trim search) = toLowerCase (trim search') ->
  filterTrackings h trackings search statuses
  = filterTrackings h trackings search' statuses
  /\ filterItems items search column = filterItems items search' column.
Proof.
  intros H. pose proof (trim_empty_toLowerCase _ _ H) as He.
  unfold filterTrackings, filterItems.
  rewrite !trim_toLowerCase, H.
  destruct (trim search) as [|c s], (trim search') as [|c' s']; try done;
    destruct He as [He1 He2]; by (specialize (He1 eq_refl) || specialize (He2 eq_refl)).
Qed.

End SearchText.

Lemma search_text_normalised_witness :
  filterTrackings Sample.host Sample.trackings "  UPS " []
  = filterTrackings Sample.host Sample.trackings "ups" [].
Proof.
  destruct (search_text_normalised Sample.host Sample.trackings []
              (@nil POItem) ItemColumn.all "  UPS " "ups") as [H _].
  - reflexivity.
  - exact H.
Defined.

(** ** Searching by date *)

Section SearchByDate.

Context (h : Host) (trackings : list (gmap string string)).

Lemma formatDate_searchable (t : gmap string string) k :
  k ∈ dateKeys -> In (Some (formatDate h (t !! k))) (allFieldValues h t).
Proof.
  unfold dateKeys. intros Hk. unfold allFieldValues. apply in_app_iff. left.
  repeat (apply elem_of_cons in Hk as [-> | Hk]);
    [unfold standardValues; cbn [In]; tauto .. | by apply elem_of_nil in Hk].
Qed.

Lemma formatDate_blank (v : option string) :
  trim (or_str v "") = "" -> formatDate h v = "N/A".
Proof.
  destruct v as [[|c s]|]; simpl; try done. by intros ->.
Qed.

Lemma formatDate_unparseable v :
  trim v <> "" -> dateOnlyMatch (trim v) = None -> Date_parse h (trim v) = None ->
  formatDate h (Some v) = v.
Proof.
  intros Ht Hm Hp. unfold formatDate. destruct v as [|c s]; [done|].
  destruct (trim (String c s)) as [|c' s'] eqn:E; [done|]. by rewrite Hm, Hp.
Qed.

(** X19. A record is found by the displayed form of any of its date
    fields, typed in any letter case: by [N/A] when the date is missing or
    blank, and by the raw text when the date cannot be parsed. *)
Theorem search_by_displayed_date (t : gmap string string) k :
  t ∈ trackings -> k ∈ dateKeys ->
  (forall search,
     toLowerCase search = toLowerCase (formatDate h (t !! k)) ->
     t ∈ filterTrackings h trackings search [])
  /\ (trim (or_str (t !! k) "") = "" -> t ∈ filterTrackings h trackings "n/a" [])
  /\ (forall v,
        t !! k = Some v -> trim v <> "" ->
        dateOnlyMatch (trim v) = None -> Date_parse h (trim v) = None ->
        t ∈ filterTrackings h trackings v []).
Proof.
  intros Hin Hk.
  assert (forall search,
            toLowerCase search = toLowerCase (formatDate h (t !! k)) ->
            t ∈ filterTrackings h trackings search []) as Hall.
  { intros search Hs. unfold filterTrackings. simpl.
    destruct (trim search) eqn:Ht; [done|].
    apply list_elem_of_In, filter_In. split; [by apply list_elem_of_In|].
    unfold matchesSearch. apply existsb_exists.
    exists (toLowerCase (formatDate h (t !! k))). split.
    - unfold searchableFields. apply list_elem_of_In, list_elem_of_fmap.
      exists (Some (formatDate h (t !! k))).
      destruct (formatDate h (t !! k)) eqn:E.
      { apply toLowerCase_empty in Hs. by subst. }
      split; [done|]. apply list_elem_of_In, filter_In. split; [|done].
      rewrite <- E. by apply formatDate_searchable.
    - rewrite Hs. apply includes_trim. }
  split; [exact Hall|]. split.
  - intros Hb. apply Hall. by rewrite formatDate_blank.
  - intros v Hv Ht Hm Hp. apply Hall. by rewrite Hv, formatDate_unparseable.
Qed.

End SearchByDate.

Lemma search_by_displayed_date_witness :
  Sample.lastTracking ∈ filterTrackings Sample.host Sample.trackings "NOV 10, 2025" []
  /\ buildTracking Sample.host []
       0 {[ "order_number" := "A1"; "tracking_number" := "1Z999";
            "carrier" := "UPS"; "estimated_delivery" := "2000-01-01" ]}
     ∈ filterTrackings Sample.host Sample.trackings "n/a" [].
Proof.
  split.
  - destruct (search_by_displayed_date Sample.host Sample.trackings
                Sample.lastTracking "last_updated_at") as [H _].
    + apply lastTracking_loaded.
    + repeat constructor.
    + apply H. vm_compute. reflexivity.
  - destruct (search_by_displayed_date Sample.host Sample.trackings
                (buildTracking Sample.host []
                   0 {[ "order_number" := "A1"; "tracking_number" := "1Z999";
                        "carrier" := "UPS"; "estimated_delivery" := "2000-01-01" ]})
                "last_updated_at") as (_ & H & _).
    + apply elem_of_reconcile. split; [|vm_compute; reflexivity].
      eexists 0%nat, _. split; reflexivity.
    + repeat constructor.
    + apply H. vm_compute. reflexivity.
Defined.

(** ** Tracking links *)

Section TrackingLinks.

Lemma all_chars_app p s1 s2 :
  all_chars p (s1 +:+ s2) = all_chars p s1 && all_chars p s2.
Proof.
  induction s1 as [|c s1 IH]; [done|].
  change (String c s1 +:+ s2) with (String c (s1 +:+ s2)). simpl.
  by rewrite IH, andb_assoc.
Qed.

Lemma encodeURIComponent_cons c s :
  encodeURIComponent (String c s)
  = encodeURIComponent (String c "") +:+ encodeURIComponent s.
Proof.
  simpl. unfold percent_byte.
  destruct (is_unreserved c); [done|]. by destruct (N_of_ascii c <? 128)%N.
Qed.

Lemma encodeURIComponent_char_safe c :
  all_chars url_safe (encodeURIComponent (String c "")) = true.
Proof. destruct c as [[] [] [] [] [] [] [] []]; reflexivity. Qed.

(** An encoded component is made of printable ASCII characters other than
    the space. *)
Lemma encodeURIComponent_safe s : all_chars url_safe (encodeURIComponent s) = true.
Proof.
  induction s as [|c s IH]; [done|].
  by rewrite encodeURIComponent_cons, all_chars_app, encodeURIComponent_char_safe.
Qed.

Lemma includes_app_l p s x : includes s x = true -> includes (p +:+ s) x = true.
Proof.
  intros H. induction p as [|c p IH]; [exact H|].
  change (String c p +:+ s) with (String c (p +:+ s)). by apply includes_cons.
Qed.

Lemma startsWith_app s q : startsWith (s +:+ q) s = true.
Proof.
  induction s as [|c s IH]; [change ("" +:+ q) with q; by destruct q|].
  change (String c s +:+ q) with (String c (s +:+ q)). simpl.
  by rewrite bool_decide_eq_true_2.
Qed.

Lemma startsWith_app_l s q x :
  startsWith s x = true -> startsWith (s +:+ q) x = true.
Proof.
  revert s. induction x as [|a x IH]; intros s.
  - intros _. by destruct (s +:+ q).
  - destruct s as [|b s]; [done|].
    change (String b s +:+ q) with (String b (s +:+ q)). simpl.
    intros [-> Hs]%andb_prop. by rewrite IH.
Qed.

Lemma includes_app_r s q : includes (s +:+ q) s = true.
Proof. apply includes_startsWith, startsWith_app. Qed.

Lemma includes_refl s : includes s s = true.
Proof.
  apply includes_startsWith. induction s; simpl; [done|].
  by rewrite bool_decide_eq_true_2.
Qed.

Lemma linkFor_prefix p enc :
  startsWith p "https://" = true -> all_chars url_safe p = true ->
  all_chars url_safe enc = true -> linkFor enc (p +:+ enc).
Proof.
  intros Hs Hp He. split; [|split].
  - by apply startsWith_app_l.
  - by rewrite all_chars_app, Hp, He.
  - apply includes_app_l, includes_refl.
Qed.

(** X20. A tracking link exists exactly when the tracking number and the
    carrier are both non-empty.  It depends on the carrier only up to
    letter case and surrounding white space, it is an [https] address made
    of printable characters without space, and it contains the encoded
    tracking number. *)
Theorem getTrackingUrl_link (trackingNumber carrier carrier' : string) :
  (getTrackingUrl trackingNumber carrier = None
   <-> trackingNumber = "" \/ carrier = "")
  /\ (carrier <> "" -> carrier' <> "" ->
      trim (toLowerCase carrier) = trim (toLowerCase carrier') ->
      getTrackingUrl trackingNumber carrier = getTrackingUrl trackingNumber carrier')
  /\ (forall url,
        getTrackingUrl trackingNumber carrier = Some url ->
        linkFor (encodeURIComponent trackingNumber) url).
Proof.
  split; [|split].
  - unfold getTrackingUrl.
    destruct trackingNumber, carrier; split; try done; try tauto.
    by intros [?|?].
  - intros Hc Hc' Heq. unfold getTrackingUrl.
    destruct trackingNumber, carrier, carrier'; try done. by rewrite Heq.
  - intros url. unfold getTrackingUrl.
    destruct trackingNumber as [|c s], carrier as [|c0 s0]; try done.
    generalize (trim (toLowerCase (String c0 s0))). intros carrierName.
    pose proof (encodeURIComponent_safe (String c s)) as Henc.
    generalize dependent (encodeURIComponent (String c s)). intros enc Henc.
    intros [= <-].
    repeat case_bool_decide; try (by apply linkFor_prefix).
    split; [done|]. split.
    + by rewrite !all_chars_app, Henc.
    + apply includes_app_l, includes_app_r.
Qed.

Example getTrackingUrl_example :
  getTrackingUrl "1Z 99/A" " FedEx Ground "
  = Some "https://www.fedex.com/fedextrack/?trknbr=1Z%2099%2FA"
  /\ getTrackingUrl "1Z999" "  "
     = Some "https://www.google.com/search?q=1Z999+tracking"
  /\ getTrackingUrl "1Z999" "" = None.
Proof. repeat split; reflexivity. Qed.

End TrackingLinks.

(** ** Labels *)

Section Labels.

Lemma lower_upper_word_char c : lower_char (upper_word_char c) = lower_char c.
Proof. destruct c as [[] [] [] [] [] [] [] []]; reflexivity. Qed.

Lemma toLowerCase_capitalize_words b s :
  toLowerCase (capitalize_words b s) = toLowerCase s.
Proof.
  revert b. induction s as [|c s IH]; intros b; simpl; [done|].
  rewrite IH. by destruct (is_word c && negb b); rewrite ?lower_upper_word_char.
Qed.

Lemma length_capitalize_words b s :
  String.length (capitalize_words b s) = String.length s.
Proof. revert b. induction s; intros b; simpl; [done|]. by rewrite IHs. Qed.

Lemma length_map_chars f s : String.length (map_chars f s) = String.length s.
Proof. induction s; simpl; [done|]. by rewrite IHs. Qed.

Lemma no_underscore_capitalize_words b s :
  all_chars (fun c => negb (bool_decide (c = "_"%char))) s = true ->
  all_chars (fun c => negb (bool_decide (c = "_"%char))) (capitalize_words b s) = true.
Proof.
  revert b. induction s as [|c s IH]; intros b; simpl; [done|].
  intros [Hc Hs]%andb_prop. rewrite IH by done.
  destruct (is_word c && negb b); [|by rewrite Hc].
  revert Hc. by destruct c as [[] [] [] [] [] [] [] []].
Qed.

Lemma no_underscore_map_chars s :
  all_chars (fun c => negb (bool_decide (c = "_"%char)))
    (map_chars underscore_to_space s) = true.
Proof.
  induction s as [|c s IH]; simpl; [done|]. rewrite IH.
  by destruct c as [[] [] [] [] [] [] [] []].
Qed.

(** X21. A status label is never empty: it is [Unknown] for a missing or
    empty tag; otherwise it has the length of the tag, no underscore, and
    the letters of the tag up to letter case, with spaces for underscores.
    The labels of the tags that [determineStatus] gives are [Delivered],
    [Out For Delivery] and [In Transit]. *)
Theorem getStatusLabel_of_tag (tag : option string) h s :
  getStatusLabel tag <> ""
  /\ (or_str tag "" = "" -> getStatusLabel tag = "Unknown")
  /\ (forall t, tag = Some t -> t <> "" ->
        String.length (getStatusLabel tag) = String.length t
        /\ all_chars (fun c => negb (bool_decide (c = "_"%char))) (getStatusLabel tag) = true
        /\ toLowerCase (getStatusLabel tag)
           = toLowerCase (map_chars underscore_to_space t))
  /\ getStatusLabel (Some (determineStatus h s))
     ∈ ["Delivered"; "Out For Delivery"; "In Transit"].
Proof.
  assert (forall t, t <> "" -> getStatusLabel (Some t) = formatColumnName t) as Hlabel.
  { intros [|c t] Ht; [done|]. reflexivity. }
  split; [|split; [|split]].
  - destruct tag as [[|c t]|]; done.
  - by destruct tag as [[|c t]|].
  - intros t -> Ht. rewrite Hlabel by done. unfold formatColumnName.
    split; [by rewrite length_capitalize_words, length_map_chars|].
    split; [apply no_underscore_capitalize_words, no_underscore_map_chars|].
    apply toLowerCase_capitalize_words.
  - destruct (determineStatus_cases h s) as [-> | [-> | ->]]; repeat constructor.
Qed.

End Labels.

(** ** Destinations *)

Section Destinations.

Lemma statePattern_go_Some b s st :
  statePattern_go b s = Some st ->
  is_state_token st = true /\ includes s st = true.
Proof.
  revert b. induction s as [|a s IH]; intros b; [done|].
  cbn [statePattern_go]. destruct s as [|c rest]; [done|].
  destruct (negb b && is_upper a && is_upper c && negb (next_is_word rest)) eqn:E.
  - intros [= <-].
    apply andb_prop in E as [[[_ Ha]%andb_prop Hc]%andb_prop _].
    split; [unfold is_state_token; by rewrite Ha, Hc|].
    apply includes_startsWith. cbn [startsWith].
    rewrite !bool_decide_eq_true_2 by done. by destruct rest.
  - intros H. apply IH in H as [H1 H2]. split; [done|]. by apply includes_cons.
Qed.

Lemma split_no_separator sep s :
  all_chars (fun c => negb (sep c)) s = true -> split sep s = [s].
Proof.
  induction s as [|c s IH]; simpl; [done|].
  intros [Hc Hs]%andb_prop. destruct (sep c); [done|]. by rewrite IH.
Qed.

(** X22. [parseDestination] gives a city and a state together or neither.
    A state it gives is made of two capital letters that stand in the
    text; a city it gives is empty or one of the trimmed parts of the
    text, not itself a state code.  A text without dash or comma gives
    neither. *)
Theorem parseDestination_shape (recipientName : string) :
  match city (parseDestination recipientName), state (parseDestination recipientName) with
  | None, None => True
  | Some c, Some st =>
      is_state_token st = true /\ includes recipientName st = true
      /\ (c = "" \/ (c ∈ trim <$> split is_dash_or_comma recipientName
                    /\ is_state_token c = false))
  | _, _ => False
  end
  /\ (all_chars (fun c => negb (is_dash_or_comma c)) recipientName = true ->
      parseDestination recipientName = {| city := None; state := None |}).
Proof.
  unfold parseDestination. destruct recipientName as [|c0 s0]; [done|].
  set (name := String c0 s0). split.
  - destruct (statePattern name) as [st|] eqn:E; [|done].
    destruct (2 <=? length _)%nat; [|done]. cbn [city state].
    apply statePattern_go_Some in E as [H1 H2]. do 2 (split; [done|]).
    destruct (List.find _ _) as [[|c p]|] eqn:F; simpl; [by left| |by left].
    right. apply find_some in F as [Hin [Hp _]%andb_prop].
    split; [by apply list_elem_of_In|]. by apply negb_true_iff.
  - intros Hno. rewrite (split_no_separator _ name Hno). simpl.
    by destruct (statePattern name).
Qed.

Example parseDestination_example :
  parseDestination "Chicago, IL" = {| city := Some "Chicago"; state := Some "IL" |}
  /\ parseDestination "TX, CA" = {| city := Some ""; state := Some "TX" |}
  /\ parseDestination "Chicago IL" = {| city := None; state := None |}.
Proof. repeat split; reflexivity. Qed.

End Destinations.

(** ** The records of a load *)

Section RecordShape.

Context (h : Host).

(** X23. White space around the estimated delivery text does not change
    the status: a text that is not blank has the status of its trimmed
    form. *)
Theorem determineStatus_trim (s : string) :
  trim s <> "" -> determineStatus h s = determineStatus h (trim s).
Proof.
  intros Ht. unfold determineStatus.
  destruct s as [|c s]; [done|].
  destruct (trim (String c s)) as [|c' s'] eqn:E; [done|].
  rewrite <- E. by rewrite trim_idemp.
Qed.

Lemma baseTracking_lookups (r : gmap string string) (index : nat) :
  let base := baseTracking h r index in
  base !! "id" = Some (or_str (Some (or_str (r !! "order_number") ""))
                         (or_str (r !! "po_number") ("tracking-" +:+ pretty index)))
  /\ base !! "order_id" = Some (or_str (r !! "order_number") "")
  /\ base !! "slug" = Some (toLowerCase (or_str (r !! "carrier") ""))
  /\ base !! "estimated_delivery" = Some (or_str (r !! "estimated_delivery") "")
  /\ base !! "recipient_name"
     = Some (or_str (r !! "recipient_site_name") (or_str (r !! "recipient") ""))
  /\ base !! "checkpoint_location" = base !! "recipient_name"
  /\ base !! "destination_city"
     = Some (or_str (city (parseDestination
                             (or_str (r !! "recipient_site_name")
                                (or_str (r !! "recipient") "")))) "")
  /\ base !! "destination_state"
     = Some (or_str (state (parseDestination
                              (or_str (r !! "recipient_site_name")
                                 (or_str (r !! "recipient") "")))) "").
Proof.
  unfold baseTracking. cbn [list_to_map foldr uncurry fst snd].
  repeat split; by simplify_map_eq.
Qed.

Lemma buildTracking_base_lookup additionalData index (r : gmap string string) k v :
  baseTracking h r index !! k = Some v ->
  buildTracking h additionalData index r !! k = Some v.
Proof.
  intros Hv. unfold buildTracking. by rewrite mergeAdditional_lookup, Hv.
Qed.

(** X24. Every record of a load is coherent: its [id] is not empty and
    is the order number when there is one; its [slug] is in lower case;
    its [tag] is the status of its own [estimated_delivery]; its
    destination is the one parsed from its own [recipient_name], which is
    also its [checkpoint_location].  There is at most one record per
    primary row. *)
Theorem reconcile_records_coherent
    (ordersData additionalData : list (gmap string string)) :
  Forall (coherent h) (reconcile h ordersData additionalData)
  /\ (length (reconcile h ordersData additionalData) <= length ordersData)%nat.
Proof.
  split.
  - apply Forall_forall. intros t [(index & r & _ & ->) _]%elem_of_reconcile.
    destruct (baseTracking_lookups r index)
      as (Hid & Hoid & Hslug & Hest & Hname & Hloc & Hcity & Hstate).
    rewrite Hname in Hloc.
    unfold coherent.
    rewrite (buildTracking_base_lookup _ _ _ _ _ Hid),
      (buildTracking_base_lookup _ _ _ _ _ Hoid),
      (buildTracking_base_lookup _ _ _ _ _ Hslug),
      (buildTracking_base_lookup _ _ _ _ _ Hest),
      (buildTracking_base_lookup _ _ _ _ _ Hname),
      (buildTracking_base_lookup _ _ _ _ _ Hloc),
      (buildTracking_base_lookup _ _ _ _ _ Hcity),
      (buildTracking_base_lookup _ _ _ _ _ Hstate),
      (buildTracking_base_lookup _ _ _ _ _ (baseTracking_tag h r index)).
    split; [|split; [|split]].
    + eexists. split; [done|]. split.
      * destruct (or_str (r !! "order_number") "") as [|c s]; [|done]. simpl.
        destruct (r !! "po_number") as [[|c s]|]; done.
      * intros o [= <-] Ho.
        destruct (or_str (r !! "order_number") "") as [|c s]; [by destruct Ho|].
        reflexivity.
    + eexists. split; [done|]. apply toLowerCase_idemp.
    + eauto.
    + eauto 10.
  - unfold reconcile. etrans; [apply List.filter_length_le|].
    by rewrite length_imap.
Qed.

(** ** What a page shows *)

Context (trackings : list (gmap string string)).

Lemma elem_of_sortedTrackings page search statuses st t :
  t ∈ sortedTrackings h page trackings search statuses st
  <-> t ∈ trackingsToShow page trackings
      /\ statusAccepts statuses t = true /\ searchAccepts h search t = true.
Proof.
  unfold sortedTrackings.
  rewrite sortTrackings_perm.
  rewrite filterTrackings_unfold, !list_elem_of_In, !filter_In. tauto.
Qed.

(** X25. Whatever the search, the status filter and the sort, a page only
    shows loaded records: never a delivered record on the tracking page,
    never an undelivered one on the order-history page, and with a status
    filter only records with a selected tag.  It never shows more records
    than were loaded, and with no search, no status and no sort it shows
    the records of the page as they are. *)
Theorem sortedTrackings_shows_loaded page search statuses st t :
  t ∈ sortedTrackings h page trackings search statuses st ->
  t ∈ trackings
  /\ (page = "tracking" -> isDelivered t = false)
  /\ (page = "order-history" -> isDelivered t = true)
  /\ (statuses <> [] -> exists tag, t !! "tag" = Some tag /\ tag ∈ statuses)
  /\ (length (sortedTrackings h page trackings search statuses st)
      <= length trackings)%nat
  /\ sortedTrackings h page trackings "" [] unsetSort = trackingsToShow page trackings.
Proof.
  intros (Hpage & Hst & _)%elem_of_sortedTrackings.
  split; [|split; [|split; [|split; [|split]]]].
  - unfold trackingsToShow in Hpage.
    repeat case_bool_decide; try done;
      by apply list_elem_of_In, filter_In in Hpage as [?%list_elem_of_In _].
  - intros ->. by apply elem_of_tracking_page in Hpage as [_ ?].
  - intros ->. by apply elem_of_order_history in Hpage as [_ ?].
  - intros Hne. unfold statusAccepts in Hst. destruct statuses; [done|].
    unfold hasStatus in Hst. destruct (t !! "tag") as [tag|]; [|done].
    exists tag. by apply bool_decide_eq_true in Hst.
  - unfold sortedTrackings.
    rewrite sortTrackings_perm.
    rewrite filterTrackings_unfold.
    etrans; [apply List.filter_length_le|]. etrans; [apply List.filter_length_le|].
    unfold trackingsToShow. repeat case_bool_decide; try done;
      apply List.filter_length_le.
  - reflexivity.
Qed.

End RecordShape.

Lemma determineStatus_trim_witness :
  determineStatus Sample.host " 2000-01-01  " = "delivered".
Proof.
  rewrite (determineStatus_trim Sample.host " 2000-01-01  ").
  - reflexivity.
  - discriminate.
Defined.

Lemma sortedTrackings_shows_loaded_witness :
  Sample.lastTracking ∈ Sample.trackings.
Proof.
  destruct (sortedTrackings_shows_loaded Sample.host Sample.trackings
              "order-history" "9400" ["delivered"]
              {| sortColumn := Some ship_date; sortDirection := Some desc |}
              Sample.lastTracking) as [H _]; [|exact H].
  apply elem_of_sortedTrackings. split; [|split; vm_compute; reflexivity].
  apply elem_of_order_history. split; [apply lastTracking_loaded|].
  vm_compute. reflexivity.
Defined.
